(** * Podcast-creator: the radio-host pipeline and the Teams extractor

    A shallow embedding of the pure and effectful cores of
    [synthetic_radio_host.py] and [Teams extractor/teams_message_extractor.py],
    followed by the properties stated about them.

    Python [str] values are modelled by [string]; a character stands for a
    code point below 256.  Remote services (HTTP, text to speech, pydub,
    the file system) are modelled by the answers they give, supplied as
    explicit arguments. *)

From Stdlib Require Import String Ascii List ZArith NArith Lia Bool.
From stdpp Require Import gmap strings list.
Import ListNotations.

Local Open Scope string_scope.
Local Open Scope list_scope.

(** ** Python string primitives *)

Module PyStr.

Definition newline : ascii := "010"%char.

(** [str.isspace] on one character, for code points below 256:
    TAB..CR, FS..US, SPACE, NEL and NBSP. *)
Definition isspace (c : ascii) : bool :=
  let n := N_of_ascii c in
  (((9 <=? n) && (n <=? 13)) || ((28 <=? n) && (n <=? 32))
   || (n =? 133) || (n =? 160))%N.

Definition is_empty (s : string) : bool :=
  match s with EmptyString => true | String _ _ => false end.

(** Python truthiness of a [str]. *)
Definition truthy (s : string) : bool := negb (is_empty s).

Fixpoint lstrip (s : string) : string :=
  match s with
  | EmptyString => EmptyString
  | String c s' => if isspace c then lstrip s' else s
  end.

Fixpoint rstrip (s : string) : string :=
  match s with
  | EmptyString => EmptyString
  | String c s' =>
      let r := rstrip s' in
      if isspace c && is_empty r then EmptyString else String c r
  end.

(** [s.strip()] *)
Definition strip (s : string) : string := rstrip (lstrip s).

(** [s.startswith(p)] *)
Definition startswith (s p : string) : bool := String.prefix p s.

(** [s.replace(old, new)] for a non-empty [old]: occurrences are found
    left to right and do not overlap.  [skip] counts the characters of a
    match that remain to be passed over. *)
Fixpoint replace_from (skip : nat) (old new s : string) : string :=
  match s with
  | EmptyString => EmptyString
  | String c s' =>
      match skip with
      | S k => replace_from k old new s'
      | O =>
          if String.prefix old s
          then String.append new (replace_from (String.length old - 1) old new s')
          else String c (replace_from 0 old new s')
      end
  end.

Definition replace (s old new : string) : string := replace_from 0 old new s.

(** [s.split(sep)] for a one-character separator. *)
Fixpoint split_on (sep : ascii) (s : string) : list string :=
  match s with
  | EmptyString => [EmptyString]
  | String c s' =>
      if Ascii.eqb c sep then EmptyString :: split_on sep s'
      else match split_on sep s' with
           | h :: t => String c h :: t
           | [] => [String c EmptyString]
           end
  end.

(** [s.split('\n')] *)
Definition split_lines (s : string) : list string := split_on newline s.

(** [c in s] for a character [c]. *)
Fixpoint contains (c : ascii) (s : string) : bool :=
  match s with
  | EmptyString => false
  | String d s' => Ascii.eqb d c || contains c s'
  end.

(** [sep.join(parts)] *)
Definition join (sep : string) (parts : list string) : string :=
  String.concat sep parts.

End PyStr.

(** ** Script segmenter: [parse_script] *)

Module Segmenter.
Import PyStr.

Definition segment : Type := string * string.

(** The three local variables of [parse_script]. *)
Record state := mkState {
  segments : list segment;
  current_speaker : option string;
  current_text : list string
}.

Definition init : state :=
  {| segments := []; current_speaker := None; current_text := [] |}.

(** [if current_speaker and current_text: segments.append(...)] *)
Definition emit (st : state) : list segment :=
  match current_speaker st with
  | Some sp =>
      if truthy sp && negb (Nat.eqb (length (current_text st)) 0)
      then segments st ++ [(sp, join " " (current_text st))]
      else segments st
  | None => segments st
  end.

Definition open_segment (label speaker line : string) (st : state) : state :=
  {| segments := emit st;
     current_speaker := Some speaker;
     current_text := [strip (replace line label "")] |}.

(** One iteration of the [for line in lines] loop. *)
Definition step (st : state) (raw : string) : state :=
  let line := strip raw in
  if is_empty line then st
  else if startswith line "Person A:" then open_segment "Person A:" "Person A" line st
  else if startswith line "Person B:" then open_segment "Person B:" "Person B" line st
  else match current_speaker st with
       | Some sp =>
           if truthy sp
           then {| segments := segments st;
                   current_speaker := current_speaker st;
                   current_text := current_text st ++ [line] |}
           else st
       | None => st
       end.

Definition parse_script (script : string) : list segment :=
  emit (fold_left step (split_lines script) init).

End Segmenter.

(** ** Exceptions and results *)

(** The exceptions the modelled functions raise.  [AllSegmentsFailed failed]
    is the [Exception] raised at the end of [generate_audio_for_segments],
    whose message carries the list [failed_segments] when it is not empty. *)
Inductive exn : Type :=
| ValueError (msg : string)
| Exception (msg : string)
| AllSegmentsFailed (failed : list nat)
| IndexError
| OSError (msg : string).

Inductive outcome (A : Type) : Type :=
| Return (a : A)
| Raise (e : exn).
Arguments Return {A} a.
Arguments Raise {A} e.

Definition bytes : Type := list Byte.byte.

(** ** Text to speech and the per-segment synthesizer *)

Module Synth.
Import PyStr.

(** Answer of [requests.post]: an exception of the [requests] library, or a
    response.  [error_text] is what the function appends to its error
    message for a status other than 200: the status and the detail found
    in the body. *)
Inductive http_answer : Type :=
| RequestException (msg : string)
| Response (status_code : Z) (content : bytes) (error_text : string).

(** Answer of the ElevenLabs SDK, tried when the HTTP call was rejected:
    not installed (or neither of its two entry points usable), audio, or an
    exception. *)
Inductive sdk_answer : Type :=
| SdkUnavailable
| SdkAudio (audio : bytes)
| SdkRaises (msg : string).

(** What is handed to a remote service: the position of the segment being
    synthesized (so that a service may answer the same text differently at
    different times), the text and the voice. *)
Definition call : Type := nat * string * string.

(** A request that left the program: the HTTP post to ElevenLabs, the call
    of the ElevenLabs SDK, or the OpenAI speech call. *)
Inductive remote_call : Type :=
| Posted (request : call)
| SdkAsked (request : call)
| SpeechAsked (request : call).

(** The services a run talks to. *)
Record services := mkServices {
  elevenlabs_api_key : option string;
  openai_client : bool;
  post : call -> http_answer;
  sdk : call -> sdk_answer;
  speech_create : call -> option bytes
}.

Definition key_missing (k : option string) : bool :=
  match k with
  | None => true
  | Some s => is_empty s
  end.

Definition missing_key_msg : string :=
  "ElevenLabs API key not set. Please set ELEVENLABS_API_KEY in .env file".

(** [text_to_speech_elevenlabs]: what it returns or raises, and the
    requests it sent, in order. *)
Definition text_to_speech_elevenlabs
    (sv : services) (i : nat) (text voice_id : string)
  : outcome bytes * list remote_call :=
  if key_missing (elevenlabs_api_key sv)
  then (Raise (ValueError missing_key_msg), [])
  else
    let request := (i, text, voice_id) in
    match post sv request with
    | RequestException msg =>
        (Raise (Exception (String.append "Network error connecting to ElevenLabs: " msg)),
         [Posted request])
    | Response status content error_text =>
        if (status =? 200)%Z then (Return content, [Posted request])
        else
          let error_msg := String.append "ElevenLabs API error" error_text in
          match sdk sv request with
          | SdkAudio audio => (Return audio, [Posted request; SdkAsked request])
          | SdkRaises e2 =>
              (Raise (Exception
                        (String.append "ElevenLabs TTS failed: "
                           (String.append error_msg
                              (String.append ". SDK fallback also failed: " e2)))),
               [Posted request; SdkAsked request])
          | SdkUnavailable =>
              (Raise (Exception (String.append "ElevenLabs TTS failed: " error_msg)),
               [Posted request])
          end
    end.

(** [text_to_speech_openai] returns [None] when the remote call raises. *)
Definition text_to_speech_openai
    (sv : services) (i : nat) (text voice : string)
  : outcome (option bytes) * list remote_call :=
  if openai_client sv
  then let request := (i, text, voice) in
       (Return (speech_create sv request), [SpeechAsked request])
  else (Raise (ValueError
                 "OpenAI client not initialized. Please set OPENAI_API_KEY in .env file"),
        []).

(** Arguments of [generate_audio_for_segments] besides the segments. *)
Record options := mkOptions {
  use_elevenlabs : bool;
  voice_a_id : string;
  voice_b_id : string;
  openai_voice_a : string;
  openai_voice_b : string
}.

Definition default_options : options :=
  {| use_elevenlabs := true;
     voice_a_id := "21m00Tcm4TlvDq8ikWAM";
     voice_b_id := "pNInz6obpgDQGcFmaJgB";
     openai_voice_a := "nova";
     openai_voice_b := "onyx" |}.

(** [dialogue.replace("[laughs]", "").replace("[laugh]", "").strip()] *)
Definition clean_dialogue (dialogue : string) : string :=
  strip (replace (replace dialogue "[laughs]" "") "[laugh]" "").

(** The body of the [try] block up to the assignment of [audio_bytes]: the
    voice is chosen from the speaker and the provider's function is called
    with it. *)
Definition call_tts (sv : services) (o : options) (i : nat) (text speaker : string)
  : outcome (option bytes) * list remote_call :=
  if use_elevenlabs o
  then
    let voice_id := if String.eqb speaker "Person A" then voice_a_id o else voice_b_id o in
    let '(audio_bytes, sent) := text_to_speech_elevenlabs sv i text voice_id in
    (match audio_bytes with
     | Return b => Return (Some b)
     | Raise e => Raise e
     end, sent)
  else
    let voice := if String.eqb speaker "Person A"
                 then openai_voice_a o else openai_voice_b o in
    text_to_speech_openai sv i text voice.

(** The two lists of the function, and the requests sent so far. *)
Record loop_state := mkLoop {
  audio_segments : list bytes;
  failed_segments : list nat;
  calls : list remote_call
}.

Definition loop_init : loop_state :=
  {| audio_segments := []; failed_segments := []; calls := [] |}.

Definition record_failure (i : nat) (sent : list remote_call) (st : loop_state)
  : loop_state :=
  {| audio_segments := audio_segments st;
     failed_segments := failed_segments st ++ [i + 1];
     calls := calls st ++ sent |}.

(** One iteration of [for i, (speaker, dialogue) in enumerate(segments)]. *)
Definition loop_step (sv : services) (o : options)
    (st : loop_state) (item : nat * (string * string)) : loop_state :=
  let '(i, (speaker, dialogue)) := item in
  let clean := clean_dialogue dialogue in
  if is_empty clean then st
  else
    let '(result, sent) := call_tts sv o i clean speaker in
    match result with
    | Return (Some audio_bytes) =>
        if negb (Nat.eqb (length audio_bytes) 0)
        then {| audio_segments := audio_segments st ++ [audio_bytes];
                failed_segments := failed_segments st;
                calls := calls st ++ sent |}
        else record_failure i sent st
    | Return None => record_failure i sent st
    | Raise _ => record_failure i sent st
    end.

Definition enumerate {A : Type} (l : list A) : list (nat * A) :=
  combine (seq 0 (length l)) l.

Definition run_loop (sv : services) (o : options)
    (segs : list (string * string)) : loop_state :=
  fold_left (loop_step sv o) (enumerate segs) loop_init.

Definition generate_audio_for_segments (sv : services) (o : options)
    (segs : list (string * string)) : outcome (list bytes) :=
  let st := run_loop sv o segs in
  if Nat.eqb (length (audio_segments st)) 0
  then Raise (AllSegmentsFailed (failed_segments st))
  else Return (audio_segments st).

End Synth.

(** ** Aggregator and exporter: [combine_and_export_audio] *)

Module Mixer.

(** What a pydub [AudioSegment] is made of: decoded clips and stretches of
    silence, in playing order.  [ms] is the nominal length of a piece, in
    milliseconds: for a pause the duration asked of [silent], for a clip
    the length the decoder gives it.  [gain_passes] counts the
    normalization passes applied to the piece.  The length pydub computes
    for a whole track is not modelled. *)
Inductive source : Type :=
| Decoded (mp3 : bytes)
| Silence.

Record piece := mkPiece {
  what : source;
  ms : N;
  gain_passes : nat
}.

Definition AudioSegment : Type := list piece.

Definition empty : AudioSegment := [].

Definition silent (duration : N) : AudioSegment :=
  [{| what := Silence; ms := duration; gain_passes := 0 |}].

Definition normalize (a : AudioSegment) : AudioSegment :=
  map (fun p => {| what := what p; ms := ms p; gain_passes := S (gain_passes p) |}) a.

(** [a + b] *)
Definition add (a b : AudioSegment) : AudioSegment := a ++ b.

(** The machine the function runs on: whether a clip decodes (and how long
    it plays), whether the encoder can write the result, and whether the
    output file can be opened for writing. *)
Record host := mkHost {
  decode : bytes -> option N;
  export_ok : bool;
  open_ok : bool
}.

(** [AudioSegment.from_mp3(io.BytesIO(b))]; [None] when it raises. *)
Definition from_mp3 (h : host) (b : bytes) : option AudioSegment :=
  match decode h b with
  | Some d => Some [{| what := Decoded b; ms := d; gain_passes := 0 |}]
  | None => None
  end.

Inductive artifact : Type :=
| Encoded (track : AudioSegment)
| Raw (data : bytes).

(** [f"{n / d:.0f}"] for non-negative integers [n] and [d > 0]: the
    quotient rounded to the nearest integer, a tie going to the even one.
    (The quotient is a float in the code; for [d] = 10000 the rounding
    agrees with the exact one for any [n] below 10^15.) *)
Definition round_half_even (n d : Z) : Z :=
  let q := (n / d)%Z in
  let r := (n mod d)%Z in
  if (2 * r <? d)%Z then q
  else if (d <? 2 * r)%Z then (q + 1)%Z
  else if Z.even q then q else (q + 1)%Z.

(** The duration the function prints: on the normalization path the length
    pydub computes for the track (printed in seconds with one decimal); on
    the fallback path the estimate printed after the tilde, in whole
    seconds. *)
Inductive report : Type :=
| TrackLength (track : AudioSegment)
| Estimate (seconds : Z).

(** What a call does: the value returned or exception raised, the file
    written (if any) and the duration printed (if any). *)
Record run := mkRun {
  result : outcome (option string);
  written : option artifact;
  reported_duration : option report
}.

(** Body of the [for audio_bytes in audio_segments] loop; [None] once an
    exception has been raised. *)
Definition mix_step (h : host) (acc : option AudioSegment) (audio_bytes : bytes)
  : option AudioSegment :=
  match acc with
  | None => None
  | Some combined_audio_seg =>
      match from_mp3 h audio_bytes with
      | None => None
      | Some audio_seg =>
          let audio_seg := normalize audio_seg in
          let combined_audio_seg := add combined_audio_seg audio_seg in
          Some (add combined_audio_seg (silent 300))
      end
  end.

(** The [try] block up to the export; [None] when it raises. *)
Definition normalized_track (h : host) (audio_segments : list bytes)
  : option AudioSegment :=
  match fold_left (mix_step h) audio_segments (Some empty) with
  | Some combined_audio_seg =>
      let combined_audio_seg := normalize combined_audio_seg in
      if export_ok h then Some combined_audio_seg else None
  | None => None
  end.

(** The [except] block: raw concatenation. *)
Definition fallback (h : host) (audio_segments : list bytes)
    (output_filename : string) : run :=
  let combined_audio := concat audio_segments in
  if open_ok h
  then {| result := Return (Some output_filename);
          written := Some (Raw combined_audio);
          reported_duration :=
            Some (Estimate (round_half_even (Z.of_nat (length combined_audio)) 10000)) |}
  else {| result := Raise (OSError output_filename);
          written := None;
          reported_duration := None |}.

Definition combine_and_export_audio (h : host) (audio_segments : list bytes)
    (output_filename : string) : run :=
  match audio_segments with
  | [] => {| result := Return None; written := None; reported_duration := None |}
  | _ :: _ =>
      match normalized_track h audio_segments with
      | Some combined_audio_seg =>
          {| result := Return (Some output_filename);
             written := Some (Encoded combined_audio_seg);
             reported_duration := Some (TrackLength combined_audio_seg) |}
      | None => fallback h audio_segments output_filename
      end
  end.

End Mixer.

(** ** Teams extractor: paginator and URL parser *)

Module Teams.
Import PyStr.

Definition base_url : string := "https://graph.microsoft.com/v1.0".

(** The [params] dictionary of the first channel request. *)
Record query := mkQuery {
  q_top : Z;
  q_orderby : string
}.

(** A request as the server sees it: the URL and the [params] sent. *)
Definition request : Type := string * option query.

Section Paginator.
(** Messages are opaque JSON objects. *)
Variable message : Type.

(** The JSON body of a page: [value], absent or an array, and
    [@odata.nextLink], absent (or null) or a string. *)
Record page := mkPage {
  value : option (list message);
  nextLink : option string
}.

(** What one [requests.get] brings back: an exception of the [requests]
    library, or a response whose body is a JSON object. *)
Inductive answer : Type :=
| NetworkFailure
| HttpResponse (status_code : Z) (data : page).

(** [response.raise_for_status()] raises for 4xx and 5xx. *)
Definition raises_for_status (status_code : Z) : bool :=
  ((400 <=? status_code) && (status_code <? 600))%Z.

(** [while url:] *)
Definition url_truthy (url : option string) : bool :=
  match url with
  | Some u => truthy u
  | None => false
  end.

(** [data.get('value', [])] *)
Definition get_value (data : page) : list message :=
  match value data with
  | Some messages => messages
  | None => []
  end.

(** The [while url:] loop inside [try]/[except] followed by
    [return all_messages].  The server is given by the answers it makes,
    one per request, in order; the result is [None] when the answers run
    out while the loop still has a URL to fetch.  The second component
    is the list of requests sent. *)
Fixpoint fetch_loop (answers : list answer) (url : option string)
    (params : option query) (all_messages : list message) (sent : list request)
  : option (outcome (list message) * list request) :=
  match url with
  | Some u =>
      if truthy u then
        match answers with
        | [] => None
        | a :: rest =>
            let sent := sent ++ [(u, params)] in
            match a with
            | NetworkFailure => Some (Return all_messages, sent)
            | HttpResponse status_code data =>
                if raises_for_status status_code
                then Some (Return all_messages, sent)
                else fetch_loop rest (nextLink data) None
                       (all_messages ++ get_value data) sent
            end
        end
      else Some (Return all_messages, sent)
  | None => Some (Return all_messages, sent)
  end.

Variable unquote : string -> string.

Definition get_channel_messages (answers : list answer)
    (team_id channel_id : string) (top : Z)
  : option (outcome (list message) * list request) :=
  let channel_id := unquote channel_id in
  let url :=
    String.append base_url
      (String.append "/teams/"
         (String.append team_id
            (String.append "/channels/"
               (String.append channel_id "/messages")))) in
  let params := {| q_top := top; q_orderby := "lastModifiedDateTime desc" |} in
  fetch_loop answers (Some url) (Some params) [] [].

(** [get_user_chat_messages] runs the same loop and never passes
    [params]. *)
Definition get_user_chat_messages (answers : list answer) (user_id : string)
  : option (outcome (list message) * list request) :=
  let url :=
    String.append base_url
      (String.append "/users/" (String.append user_id "/chats/getAllMessages")) in
  fetch_loop answers (Some url) None [] [].

End Paginator.

Arguments mkPage {message} value nextLink.
Arguments value {message} p.
Arguments nextLink {message} p.
Arguments NetworkFailure {message}.
Arguments HttpResponse {message} status_code data.
Arguments get_value {message} data.
Arguments fetch_loop {message} answers url params all_messages sent.
Arguments get_channel_messages {message} unquote answers team_id channel_id top.
Arguments get_user_chat_messages {message} answers user_id.

Section UrlParser.
(** The parts of [urllib.parse.urlparse(url)] the function reads. *)
Record ParseResult := mkParse {
  path : string;
  query_string : string
}.

(** The three functions of [urllib.parse] the parser calls. *)
Variable urlparse : string -> outcome ParseResult.
Variable parse_qs : string -> gmap string (list string).
Variable unquote : string -> string.

(** [params.get(key, [None])[0]] *)
Definition first_value (params : gmap string (list string)) (key : string)
  : outcome (option string) :=
  match params !! key with
  | Some (v :: _) => Return (Some v)
  | Some [] => Raise IndexError
  | None => Return None
  end.

(** [path_parts.index(x)], defined when [x in path_parts]. *)
Fixpoint index (x : string) (l : list string) : option nat :=
  match l with
  | [] => None
  | y :: l' => if String.eqb y x then Some 0 else option_map S (index x l')
  end.

(** The channel id: the path part that follows the first ["channel"]. *)
Definition channel_of (path_parts : list string) : option string :=
  match index "channel" path_parts with
  | Some idx =>
      if Nat.ltb (idx + 1) (length path_parts)
      then option_map unquote (path_parts !! (idx + 1))
      else None
  | None => None
  end.

Definition parse_channel_url (url : string) : outcome (gmap string (option string)) :=
  match urlparse url with
  | Raise e => Raise e
  | Return parsed =>
      let params := parse_qs (query_string parsed) in
      match first_value params "groupId" with
      | Raise e => Raise e
      | Return group_id =>
          match first_value params "tenantId" with
          | Raise e => Raise e
          | Return tenant_id =>
              let path_parts := split_on "/"%char (path parsed) in
              let channel_id := channel_of path_parts in
              Return (<["groupId" := group_id]>
                        (<["tenantId" := tenant_id]>
                           (<["channelId" := channel_id]> ∅)))
          end
      end
  end.

End UrlParser.

End Teams.

(** ** Reference descriptions

    Declarative counterparts of the loops above, written from the prose
    description of each component, to be compared with the code. *)

Module SegmenterSpec.
Import PyStr.

(** A line is blank, opens a segment with one of the two labels, or is a
    plain line of text. *)
Inductive line_kind : Type :=
| Blank
| Label (speaker text : string)
| Plain (text : string).

Definition classify (raw : string) : line_kind :=
  let line := strip raw in
  if is_empty line then Blank
  else if startswith line "Person A:"
       then Label "Person A" (strip (replace line "Person A:" ""))
  else if startswith line "Person B:"
       then Label "Person B" (strip (replace line "Person B:" ""))
  else Plain line.

(** Reading the lines from the last to the first: plain lines wait for the
    label above them; a label takes the lines waiting below it; what still
    waits at the top belongs to no segment. *)
Fixpoint gather (lines : list string) : list string * list Segmenter.segment :=
  match lines with
  | [] => ([], [])
  | raw :: rest =>
      let '(waiting, segs) := gather rest in
      match classify raw with
      | Blank => (waiting, segs)
      | Label speaker text => ([], (speaker, join " " (text :: waiting)) :: segs)
      | Plain text => (text :: waiting, segs)
      end
  end.

Definition segment_script (script : string) : list Segmenter.segment :=
  snd (gather (split_lines script)).

(** While a segment is open its speaker is a non-empty string and its
    text has at least one part. *)
Definition wf (st : Segmenter.state) : Prop :=
  match Segmenter.current_speaker st with
  | Some sp => truthy sp = true /\ Segmenter.current_text st <> []
  | None => True
  end.

(** What the loop emits from any state, in terms of [gather]. *)
Definition emitted_from (st : Segmenter.state) (lines : list string) : list Segmenter.segment :=
  match Segmenter.current_speaker st with
  | Some sp =>
      Segmenter.segments st
        ++ (sp, join " " (Segmenter.current_text st ++ fst (gather lines))) :: snd (gather lines)
  | None => Segmenter.segments st ++ snd (gather lines)
  end.

(** The speaker a line introduces, when the line opens a segment. *)
Definition speaker_of_line (raw : string) : option string :=
  match classify raw with
  | Label speaker _ => Some speaker
  | _ => None
  end.

Definition is_label_line (raw : string) : bool :=
  match speaker_of_line raw with
  | Some _ => true
  | None => false
  end.

(** Two transcripts, one after the other on separate lines. *)
Definition then_script (first second : string) : string :=
  String.append first (String newline second).

(** A segment written back as a transcript line: "<label>: <text>". *)
Definition rejoin (seg : Segmenter.segment) : string :=
  String.append (fst seg) (String.append ": " (snd seg)).

(** The label that opens the segments of a speaker. *)
Definition label_of (speaker : string) : string := String.append speaker ":".

(** A segment as the segmenter makes them: one of the two speakers, and a
    text on one line. *)
Definition well_formed (seg : Segmenter.segment) : Prop :=
  (fst seg = "Person A" \/ fst seg = "Person B")
  /\ contains newline (snd seg) = false.

End SegmenterSpec.

Module SynthSpec.
Import PyStr Synth.

(** What happens to one segment, taken on its own. *)
Inductive verdict : Type :=
| Skipped
| Succeeded (clip : bytes)
| Failed.

Definition verdict_of (sv : services) (o : options)
    (item : nat * (string * string)) : verdict :=
  let '(i, (speaker, dialogue)) := item in
  if is_empty (clean_dialogue dialogue) then Skipped
  else match fst (call_tts sv o i (clean_dialogue dialogue) speaker) with
       | Return (Some (b :: clip)) => Succeeded (b :: clip)
       | _ => Failed
       end.

Definition clip_of (sv : services) (o : options)
    (item : nat * (string * string)) : option bytes :=
  match verdict_of sv o item with
  | Succeeded clip => Some clip
  | _ => None
  end.

Definition failure_of (sv : services) (o : options)
    (item : nat * (string * string)) : option nat :=
  match verdict_of sv o item with
  | Failed => Some (fst item + 1)
  | _ => None
  end.

(** The clips of the segments that succeed, in segment order. *)
Definition successful_clips (sv : services) (o : options)
    (segs : list (string * string)) : list bytes :=
  omap (clip_of sv o) (enumerate segs).

(** The one-based positions of the segments that fail. *)
Definition failed_positions (sv : services) (o : options)
    (segs : list (string * string)) : list nat :=
  omap (failure_of sv o) (enumerate segs).

(** A segment has something to say when its cleaned text is not empty. *)
Definition speaks (seg : string * string) : bool :=
  negb (is_empty (clean_dialogue (snd seg))).

(** The one-based positions of the segments that have something to say. *)
Definition attempted_positions (segs : list (string * string)) : list nat :=
  omap (fun item : nat * (string * string) =>
          if speaks (snd item) then Some (fst item + 1) else None)
       (enumerate segs).

(** The position of a segment when it has something to say. *)
Definition attempt_of (item : nat * (string * string)) : option nat :=
  if speaks (snd item) then Some (fst item + 1) else None.

(** The voice bound to a speaker: the first voice of the provider in use
    for "Person A", the second one for anybody else. *)
Definition voice_for (o : options) (speaker : string) : string :=
  if String.eqb speaker "Person A"
  then (if use_elevenlabs o then voice_a_id o else openai_voice_a o)
  else (if use_elevenlabs o then voice_b_id o else openai_voice_b o).

(** The requests that synthesizing one text with one voice sends, given
    how the services answer: nothing without the credential; with
    ElevenLabs the HTTP post, followed by the SDK call when the post was
    answered with a status other than 200 and the SDK is usable; with
    OpenAI the speech call. *)
Definition requests_for (sv : services) (o : options) (request : call)
  : list remote_call :=
  if use_elevenlabs o then
    if key_missing (elevenlabs_api_key sv) then []
    else match post sv request with
         | RequestException _ => [Posted request]
         | Response status_code _ _ =>
             if (status_code =? 200)%Z then [Posted request]
             else match sdk sv request with
                  | SdkUnavailable => [Posted request]
                  | _ => [Posted request; SdkAsked request]
                  end
         end
  else if openai_client sv then [SpeechAsked request] else [].

(** The requests expected for a segment: none when it has nothing to say,
    otherwise those of its cleaned text with the voice of its speaker. *)
Definition calls_of (sv : services) (o : options) (item : nat * (string * string))
  : list remote_call :=
  let '(i, (speaker, dialogue)) := item in
  if is_empty (clean_dialogue dialogue) then []
  else requests_for sv o (i, clean_dialogue dialogue, voice_for o speaker).

Definition expected_calls (sv : services) (o : options) (segs : list (string * string))
  : list remote_call :=
  flat_map (calls_of sv o) (enumerate segs).

(** What a request carries. *)
Definition request_of (c : remote_call) : call :=
  match c with
  | Posted request => request
  | SdkAsked request => request
  | SpeechAsked request => request
  end.

(** The credential of the provider in use is not configured. *)
Definition credential_missing (sv : services) (o : options) : bool :=
  if use_elevenlabs o then key_missing (elevenlabs_api_key sv)
  else negb (openai_client sv).

End SynthSpec.

(** ** Sample runs *)

Module Samples.
Import Synth.

Definition tone (i : nat) : bytes :=
  match i with
  | 0 => [Byte.x01]
  | 1 => [Byte.x02]
  | 2 => [Byte.x03]
  | 3 => [Byte.x04]
  | _ => [Byte.x05]
  end.

(** A service that answers the segments at even positions (counting from
    zero) and times out on the others. *)
Definition flaky : services :=
  {| elevenlabs_api_key := Some "sk-test";
     openai_client := false;
     post := fun request =>
               if Nat.even (fst (fst request))
               then Response 200 (tone (fst (fst request))) ""
               else RequestException "timed out";
     sdk := fun _ => SdkUnavailable;
     speech_create := fun _ => None |}.

(** The same service reached without an API key. *)
Definition keyless : services :=
  {| elevenlabs_api_key := None;
     openai_client := false;
     post := post flaky;
     sdk := sdk flaky;
     speech_create := speech_create flaky |}.

(** A service that is down. *)
Definition down : services :=
  {| elevenlabs_api_key := Some "sk-test";
     openai_client := false;
     post := fun _ => RequestException "unreachable";
     sdk := fun _ => SdkUnavailable;
     speech_create := fun _ => None |}.

Definition five : list (string * string) :=
  [("Person A", "ek"); ("Person B", "do"); ("Person A", "teen");
   ("Person B", "chaar"); ("Narrator", "paanch")].

(** A service that knows one voice only: it answers a post for the default
    first voice and rejects every other voice with status 422; the SDK then
    fails as well. *)
Definition one_voice : services :=
  {| elevenlabs_api_key := Some "sk-test";
     openai_client := false;
     post := fun request =>
               if String.eqb (snd request) "21m00Tcm4TlvDq8ikWAM"
               then Response 200 (tone (fst (fst request))) ""
               else Response 422 [] " (Status 422): unknown voice";
     sdk := fun _ => SdkRaises "unknown voice";
     speech_create := fun _ => None |}.

Definition trio : list (string * string) :=
  [("Person A", "hi"); ("Person B", "hey"); ("Narrator", "so")].

Definition duo : list (string * string) :=
  [("Person A", "hi"); ("Person B", "hey")].

(** A machine with working audio tooling, on which every clip plays for
    one second. *)
Definition studio : Mixer.host :=
  {| Mixer.decode := fun _ => Some 1000%N;
     Mixer.export_ok := true;
     Mixer.open_ok := true |}.

(** A machine without audio tooling. *)
Definition bare : Mixer.host :=
  {| Mixer.decode := fun _ => None;
     Mixer.export_ok := false;
     Mixer.open_ok := true |}.

End Samples.

Module MixerSpec.
Import Mixer.

(** One clip as it enters the track: decoded, normalized, then followed
    by the pause. *)
Definition clip_then_gap (h : host) (audio_bytes : bytes) : AudioSegment :=
  match from_mp3 h audio_bytes with
  | Some audio_seg => add (normalize audio_seg) (silent 300)
  | None => empty
  end.

(** The track with a pause after each clip, normalized as a whole. *)
Definition gap_after_each (h : host) (clips : list bytes) : AudioSegment :=
  normalize (flat_map (clip_then_gap h) clips).

(** The track described for the aggregator: the normalized clips with a
    pause between consecutive ones, normalized as a whole. *)
Fixpoint gaps_between_raw (h : host) (clips : list bytes) : AudioSegment :=
  match clips with
  | [] => empty
  | audio_bytes :: rest =>
      let clip := match from_mp3 h audio_bytes with
                  | Some audio_seg => normalize audio_seg
                  | None => empty
                  end in
      match rest with
      | [] => clip
      | _ :: _ => add (add clip (silent 300)) (gaps_between_raw h rest)
      end
  end.

Definition gaps_between (h : host) (clips : list bytes) : AudioSegment :=
  normalize (gaps_between_raw h clips).

Definition is_silence (p : piece) : bool :=
  match what p with
  | Silence => true
  | Decoded _ => false
  end.

(** Number of pauses in a track. *)
Definition gaps (a : AudioSegment) : nat := length (List.filter is_silence a).

End MixerSpec.

Module TeamsSpec.
Import PyStr Teams.

Section Pages.
Context {message : Type}.

(** The page an answer carries, when the request succeeded. *)
Definition served (a : answer message) : option (page message) :=
  match a with
  | NetworkFailure => None
  | HttpResponse status_code data =>
      if raises_for_status status_code then None else Some data
  end.

(** The continuation request a page asks for, if any: its link, with
    no query parameters. *)
Definition link_request (a : answer message) : option request :=
  match served a with
  | Some data =>
      match nextLink data with
      | Some u => if truthy u then Some (u, None) else None
      | None => None
      end
  | None => None
  end.

Definition continues (a : answer message) : bool :=
  match link_request a with
  | Some _ => true
  | None => false
  end.

(** A complete run: every answer is a page, every page but the last
    carries a continuation link and the last carries none. *)
Fixpoint complete (answers : list (answer message)) : bool :=
  match answers with
  | [] => false
  | a :: rest =>
      match served a with
      | None => false
      | Some _ =>
          if continues a then complete rest
          else match rest with [] => true | _ :: _ => false end
      end
  end.

(** The [value] arrays of the pages, concatenated in fetch order. *)
Definition all_values (answers : list (answer message)) : list message :=
  concat (map get_value (omap served answers)).

End Pages.

Definition channel_messages_url (unquote : string -> string)
    (team_id channel_id : string) : string :=
  String.append base_url
    (String.append "/teams/"
       (String.append team_id
          (String.append "/channels/"
             (String.append (unquote channel_id) "/messages")))).

Definition chat_messages_url (user_id : string) : string :=
  String.append base_url
    (String.append "/users/" (String.append user_id "/chats/getAllMessages")).

Definition first_query (top : Z) : query :=
  {| q_top := top; q_orderby := "lastModifiedDateTime desc" |}.

(** Sample answers: a first page with one message and a link, then a
    server error; and the same first page followed by a last page. *)
Definition page1 : answer string :=
  HttpResponse 200 {| value := Some ["m1"]; nextLink := Some "https://next/2" |}.

Definition page2 : answer string :=
  HttpResponse 200 {| value := Some ["m2"; "m3"]; nextLink := None |}.

Definition error500 : answer string :=
  HttpResponse 500 {| value := None; nextLink := None |}.

(** The first value of a query parameter, or null. *)
Definition first_of (params : gmap string (list string)) (key : string)
  : option string :=
  match params !! key with
  | Some (v :: _) => Some v
  | _ => None
  end.


Definition sample_parse_qs (qs : string) : gmap string (list string) :=
  {[ "groupId" := ["g1"] ]}.

End TeamsSpec.

Module MixerMore.
Import Mixer.



End MixerMore.

(** ** The rest of the Teams extractor *)

Module TeamsMore.
Import PyStr Teams.

(** [requests.exceptions.RequestException], which derives from [OSError]. *)
Definition request_exception : exn := OSError "RequestException".

Section Direct.
Context {message : Type}.

(** The loop of [get_user_chat_messages_direct] (example_user_chats.py):
    the loop of the extractor, except that the handler ends with [raise]. *)
Fixpoint direct_loop (answers : list (answer message)) (url : option string)
    (all_messages : list message) (sent : list request)
  : option (outcome (list message) * list request) :=
  match url with
  | Some u =>
      if truthy u then
        match answers with
        | [] => None
        | a :: rest =>
            let sent := sent ++ [(u, None)] in
            match a with
            | NetworkFailure => Some (Raise request_exception, sent)
            | HttpResponse status_code data =>
                if raises_for_status status_code
                then Some (Raise request_exception, sent)
                else direct_loop rest (nextLink data)
                       (all_messages ++ get_value data) sent
            end
        end
      else Some (Return all_messages, sent)
  | None => Some (Return all_messages, sent)
  end.

Definition get_user_chat_messages_direct (answers : list (answer message))
    (user_id : string) : option (outcome (list message) * list request) :=
  let url :=
    String.append "https://graph.microsoft.com/v1.0/users/"
      (String.append user_id "/chats/getAllMessages") in
  direct_loop answers (Some url) [] [].

End Direct.

(** The fields of a group resource that [get_team_id_from_group] reads. *)
Record group_data := mkGroup {
  resourceProvisioningOptions : option (list string);
  group_id_field : option string
}.

Inductive group_answer : Type :=
| GroupFailure
| GroupResponse (status_code : Z) (data : group_data).

(** [get_team_id_from_group]: the value returned (or the [KeyError] raised
    by [data['id']]) and the request sent. *)
Definition get_team_id_from_group (a : group_answer) (group_id : string)
  : outcome (option string) * request :=
  let url := String.append base_url (String.append "/groups/" group_id) in
  (match a with
   | GroupFailure => Return None
   | GroupResponse status_code data =>
       if raises_for_status status_code then Return None
       else match resourceProvisioningOptions data with
            | Some options =>
                if existsb (String.eqb "Team") options
                then match group_id_field data with
                     | Some team_id => Return (Some team_id)
                     | None => Raise (Exception "KeyError: 'id'")
                     end
                else Return None
            | None => Return None
            end
   end, (url, None)).

(** [url_info[key]], for a key that [parse_channel_url] always sets. *)
Definition field (url_info : gmap string (option string)) (key : string)
  : option string :=
  match url_info !! key with
  | Some v => v
  | None => None
  end.

(** The string held by an optional string known not to be null. *)
Definition or_empty (x : option string) : string :=
  match x with
  | Some s => s
  | None => EmptyString
  end.

(** [not x] for an optional string. *)
Definition falsy (x : option string) : bool :=
  match x with
  | Some s => is_empty s
  | None => true
  end.

Section Extract.
Context {message : Type}.
Variable urlparse : string -> outcome ParseResult.
Variable parse_qs : string -> gmap string (list string).
Variable unquote : string -> string.

(** [extract_messages_from_channel_url]: the group lookup is answered by
    [lookup], the pages by [answers]. *)
Definition extract_messages_from_channel_url (lookup : group_answer)
    (answers : list (answer message)) (channel_url : string)
  : option (outcome (list message) * list request) :=
  match parse_channel_url urlparse parse_qs unquote channel_url with
  | Raise e => Some (Raise e, [])
  | Return url_info =>
      if falsy (field url_info "groupId")
      then Some (Raise (ValueError "Could not extract groupId from URL"), [])
      else
        let group_id := or_empty (field url_info "groupId") in
        let '(team, sent_lookup) := get_team_id_from_group lookup group_id in
        match team with
        | Raise e => Some (Raise e, [sent_lookup])
        | Return team_id =>
            if falsy team_id
            then Some (Raise (ValueError
                                (String.append "Could not find team for group " group_id)),
                       [sent_lookup])
            else if falsy (field url_info "channelId")
            then Some (Raise (ValueError "Could not extract channelId from URL"),
                       [sent_lookup])
            else
              match get_channel_messages unquote answers (or_empty team_id)
                      (or_empty (field url_info "channelId")) 50 with
              | Some (result, sent) => Some (result, sent_lookup :: sent)
              | None => None
              end
        end
  end.

End Extract.

(** A group that is a team. *)
Definition team_group (team_id : string) : group_answer :=
  GroupResponse 200 {| resourceProvisioningOptions := Some ["Team"];
                       group_id_field := Some team_id |}.

(** A deep link with a group and a channel, already taken apart, and one
    with a group only. *)
Definition channel_link (url : string) : outcome ParseResult :=
  Return {| path := "/l/channel/19%3Aabc/General"; query_string := "groupId=g1" |}.


(** A decoder that turns "19%3Aabc" into "19:abc" and leaves the rest. *)
Definition sample_unquote (s : string) : string :=
  if String.eqb s "19%3Aabc" then "19:abc" else s.

End TeamsMore.

(** ** The pipeline around the segmenter, the synthesizer and the mixer *)

Module Pipeline.
Import PyStr.

(** The first [n] characters of a string. *)
Fixpoint take (n : nat) (s : string) : string :=
  match n, s with
  | S k, String c s' => String c (take k s')
  | _, _ => EmptyString
  end.

(** [s[:k]] for an integer [k]: a negative [k] counts from the end. *)
Definition slice_to (k : Z) (s : string) : string :=
  if (0 <=? k)%Z then take (Z.to_nat k) s
  else take (String.length s - Z.to_nat (- k)) s.

(** What the Wikipedia client gives for a title: an exception, a page that
    does not exist, or a page with its text. *)
Inductive wiki_answer : Type :=
| WikiRaises
| WikiMissing
| WikiPage (text : string).

Definition not_found_message (title : string) : string :=
  String.append "Article '" (String.append title "' not found. Please check the title.").

Definition fetch_wikipedia_article (w : wiki_answer) (title : string) (max_chars : Z)
  : option string :=
  match w with
  | WikiRaises => None
  | WikiMissing => Some (not_found_message title)
  | WikiPage text =>
      if (max_chars <? Z.of_nat (String.length text))%Z
      then Some (String.append (slice_to max_chars text) "...")
      else Some text
  end.

(** The fixed text of the two prompts, before and after the topic. *)
Record templates := mkTemplates {
  tanglish_head : string;
  tanglish_tail : string;
  hinglish_head : string;
  hinglish_tail : string
}.

Definition create_conversation_prompt (tp : templates)
    (article_text language_type : string) : string :=
  if String.eqb language_type "Tanglish"
  then String.append (tanglish_head tp)
         (String.append (slice_to 1500 article_text) (tanglish_tail tp))
  else String.append (hinglish_head tp)
         (String.append (slice_to 1500 article_text) (hinglish_tail tp)).

(** Everything a run of the pipeline talks to.  [chat] is the completion
    returned for a prompt, [None] when the call or the reading of its
    result raises. *)
Record world := mkWorld {
  wiki : string -> wiki_answer;
  groq_client : bool;
  chat : string -> option string;
  prompts : templates;
  tts : Synth.services;
  machine : Mixer.host
}.

(** [generate_conversation_script]: its result and the prompts it sent. *)
Definition generate_conversation_script (w : world) (article_text language_type : string)
  : outcome (option string) * list string :=
  if groq_client w
  then let prompt := create_conversation_prompt (prompts w) article_text language_type in
       (Return (chat w prompt), [prompt])
  else (Raise (ValueError
                 "Groq client not initialized. Please set GROQ_API_KEY in .env file"),
        []).

(** [not x] for an optional string. *)
Definition falsy (x : option string) : bool :=
  match x with
  | Some s => is_empty s
  | None => true
  end.

Definition text_of (x : option string) : string :=
  match x with
  | Some s => s
  | None => EmptyString
  end.

(** The options [create_synthetic_radio_host] passes to the synthesizer:
    the default voices, with the provider chosen by the caller. *)
Definition synth_options (use_elevenlabs : bool) : Synth.options :=
  {| Synth.use_elevenlabs := use_elevenlabs;
     Synth.voice_a_id := Synth.voice_a_id Synth.default_options;
     Synth.voice_b_id := Synth.voice_b_id Synth.default_options;
     Synth.openai_voice_a := Synth.openai_voice_a Synth.default_options;
     Synth.openai_voice_b := Synth.openai_voice_b Synth.default_options |}.

(** [create_synthetic_radio_host]: its result and the prompts sent to the
    language model. *)
Definition create_synthetic_radio_host (w : world) (wikipedia_title output_filename : string)
    (use_elevenlabs : bool) : outcome (option string) * list string :=
  let article_text := fetch_wikipedia_article (wiki w wikipedia_title) wikipedia_title 2000 in
  if falsy article_text then (Return None, [])
  else
    let '(script, sent) :=
      generate_conversation_script w (text_of article_text) "Hinglish" in
    match script with
    | Raise e => (Raise e, sent)
    | Return script =>
        if falsy script then (Return None, sent)
        else
          let segments := Segmenter.parse_script (text_of script) in
          match Synth.generate_audio_for_segments (tts w)
                  (synth_options use_elevenlabs) segments with
          | Raise e => (Raise e, sent)
          | Return audio_segments =>
              match audio_segments with
              | [] => (Return None, sent)
              | _ :: _ =>
                  (Mixer.result
                     (Mixer.combine_and_export_audio (machine w) audio_segments
                        output_filename),
                   sent)
              end
          end
    end.

End Pipeline.

(** ** Helpers of the Streamlit front end *)

Module App.
Import PyStr Pipeline.

(** [sub in s] for strings. *)
Fixpoint contains_str (sub s : string) : bool :=
  String.prefix sub s
  || match s with
     | EmptyString => false
     | String _ s' => contains_str sub s'
     end.

(** [s.split(sep)] for a non-empty separator: separators are found left to
    right and do not overlap.  [skip] counts the characters of a separator
    that remain to be passed over. *)
Fixpoint split_from (skip : nat) (sep s : string) : list string :=
  match s with
  | EmptyString => [EmptyString]
  | String c s' =>
      match skip with
      | S k => split_from k sep s'
      | O =>
          if String.prefix sep s
          then EmptyString :: split_from (String.length sep - 1) sep s'
          else match split_from 0 sep s' with
               | h :: t => String c h :: t
               | [] => [String c EmptyString]
               end
      end
  end.

Definition split (s sep : string) : list string := split_from 0 sep s.

(** [parts[0]] and [parts[-1]] of the result of a split, which is never
    empty. *)
Definition first_part (parts : list string) : string :=
  match parts with
  | h :: _ => h
  | [] => EmptyString
  end.

Definition last_part (parts : list string) : string := List.last parts EmptyString.

Section Helpers.
Variable unquote : string -> string.

Definition extract_title_from_wikipedia_url (url : string) : option string :=
  let url := first_part (split_on "#"%char (first_part (split_on "?"%char url))) in
  if contains_str "/wiki/" url
  then
    let title := last_part (split url "/wiki/") in
    let title := unquote title in
    let title := replace title "_" " " in
    Some title
  else None.

(** [get_article_text]; [st.error], [st.info] and [st.warning] only display
    a message. *)
Definition get_article_text (wiki : string -> wiki_answer)
    (input_method url_input text_input title_input : string) : option string :=
  if String.eqb input_method "Wikipedia URL" then
    if is_empty url_input then None
    else match extract_title_from_wikipedia_url url_input with
         | Some title =>
             if is_empty title then None
             else fetch_wikipedia_article (wiki title) title 2000
         | None => None
         end
  else if String.eqb input_method "Paste Article Text" then
    if is_empty text_input then None
    else if Nat.ltb 2000 (String.length text_input)
         then Some (String.append (slice_to 2000 text_input) "...")
         else Some text_input
  else if String.eqb input_method "Article Title" then
    if is_empty title_input then None
    else fetch_wikipedia_article (wiki title_input) title_input 2000
  else None.

End Helpers.

End App.

Module PipelineSamples.
Import Pipeline.

Definition plain_templates : templates :=
  {| tanglish_head := "TOPIC: "; tanglish_tail := "... (Tanglish)";
     hinglish_head := "TOPIC: "; hinglish_tail := "... (Hinglish)" |}.

(** A world where Wikipedia knows one page and the model answers every
    prompt with an essay that names no speaker. *)
Definition essay_world : world :=
  {| wiki := fun title => if String.eqb title "Mumbai Indians"
                          then WikiPage "A cricket team." else WikiMissing;
     groq_client := true;
     chat := fun _ => Some "An essay about a cricket team.";
     prompts := plain_templates;
     tts := Samples.flaky;
     machine := Samples.studio |}.

(** The same world with a model that writes a dialogue. *)
Definition talk_world : world :=
  {| wiki := wiki essay_world;
     groq_client := true;
     chat := fun _ => Some (String.append "Person A: hi"
                              (String PyStr.newline "Person B: hey"));
     prompts := plain_templates;
     tts := Samples.flaky;
     machine := Samples.studio |}.

End PipelineSamples.

(** ** The voice catalogue of the front end *)

Module Voices.
Import PyStr App.

(** One entry of [VOICE_CATALOG]. *)
Record voice_info := mkVoice {
  voice_id : string;
  gender : string;
  tone : string;
  language : string;
  description : string
}.

(** A dictionary from voice names to entries, in insertion order. *)
Definition catalog : Type := list (string * voice_info).

(** [d[name] = info] *)
Fixpoint dict_set (name : string) (info : voice_info) (d : catalog) : catalog :=
  match d with
  | [] => [(name, info)]
  | (n, i) :: d' =>
      if String.eqb n name then (n, info) :: d' else (n, i) :: dict_set name info d'
  end.

(** [info[key]]; [None] stands for the [KeyError] of an unknown key. *)
Definition info_get (info : voice_info) (key : string) : option string :=
  if String.eqb key "id" then Some (voice_id info)
  else if String.eqb key "gender" then Some (gender info)
  else if String.eqb key "tone" then Some (tone info)
  else if String.eqb key "language" then Some (language info)
  else if String.eqb key "description" then Some (description info)
  else None.

(** One iteration of the loop of [get_filtered_voices]. *)
Definition filter_step (gender_filter tone_filter language_filter : string)
    (filtered : catalog) (item : string * voice_info) : catalog :=
  let '(name, info) := item in
  if negb (String.eqb gender_filter "All") && negb (String.eqb (gender info) gender_filter)
  then filtered
  else if negb (String.eqb tone_filter "All") && negb (contains_str tone_filter (tone info))
  then filtered
  else if negb (String.eqb language_filter "All")
          && negb (contains_str language_filter (language info))
  then filtered
  else dict_set name info filtered.

Definition get_filtered_voices (voice_catalog : catalog)
    (gender_filter tone_filter language_filter : string) : catalog :=
  fold_left (filter_step gender_filter tone_filter language_filter) voice_catalog [].

(** [sorted(list(values))] for a set of strings: the distinct values in
    increasing order of their characters.  [insert_sorted] puts one more
    value in its place. *)
Fixpoint insert_sorted (x : string) (l : list string) : list string :=
  match l with
  | [] => [x]
  | y :: l' =>
      match String.compare x y with
      | Lt => x :: y :: l'
      | Eq => y :: l'
      | Gt => y :: insert_sorted x l'
      end
  end.

Definition sorted_set (values : list string) : list string :=
  fold_right insert_sorted [] values.

(** The value a voice contributes to the options of a key. *)
Definition option_of (key : string) (info : voice_info) : option string :=
  match info_get info key with
  | Some v => if String.eqb key "tone"
              then Some (first_part (split v " & "))
              else Some v
  | None => None
  end.

(** The loop of [get_unique_values]; [None] once a [KeyError] was raised. *)
Definition collect_step (key : string) (values : option (list string))
    (item : string * voice_info) : option (list string) :=
  match values with
  | None => None
  | Some vs =>
      match option_of key (snd item) with
      | Some v => Some (v :: vs)
      | None => None
      end
  end.

Definition get_unique_values (voice_catalog : catalog) (key : string)
  : option (list string) :=
  match fold_left (collect_step key) voice_catalog (Some []) with
  | Some values => Some ("All" :: sorted_set values)
  | None => None
  end.

(** The selection made by choosing one option of one key and "All" for the
    two other keys. *)
Definition select_by (voice_catalog : catalog) (key value : string) : catalog :=
  if String.eqb key "gender" then get_filtered_voices voice_catalog value "All" "All"
  else if String.eqb key "tone" then get_filtered_voices voice_catalog "All" value "All"
  else get_filtered_voices voice_catalog "All" "All" value.

(** Whether a voice passes the three filters. *)
Definition passes (gender_filter tone_filter language_filter : string)
    (item : string * voice_info) : bool :=
  (String.eqb gender_filter "All" || String.eqb (gender (snd item)) gender_filter)
  && (String.eqb tone_filter "All" || contains_str tone_filter (tone (snd item)))
  && (String.eqb language_filter "All"
      || contains_str language_filter (language (snd item))).

(** Consecutive elements increase strictly. *)
Fixpoint increasing (l : list string) : Prop :=
  match l with
  | x :: ((y :: _) as t) => String.compare x y = Lt /\ increasing t
  | _ => True
  end.

(** A small catalogue. *)
Definition rachel : voice_info :=
  {| voice_id := "21m00Tcm4TlvDq8ikWAM"; gender := "Female";
     tone := "Warm & Conversational"; language := "English (American)";
     description := "Warm, friendly voice perfect for casual conversations" |}.

Definition josh : voice_info :=
  {| voice_id := "TxGEqnHWrfWFTfGW9XjX"; gender := "Male";
     tone := "Young & Casual"; language := "English (Indian)";
     description := "Casual Indian male voice - perfect for Tanglish conversations" |}.

Definition two_voices : catalog := [("Rachel", rachel); ("Josh", josh)].

End Voices.

(** ** Properties of the string primitives *)

Module PyStrFacts.
Import PyStr.

Lemma is_empty_true (s : string) : is_empty s = true -> s = EmptyString.
Proof. destruct s; simpl; congruence. Qed.

Lemma is_empty_app (a b : string) :
  is_empty b = false -> is_empty (String.append a b) = false.
Proof. destruct a; simpl; auto. Qed.

(** *** Lengths: stripping never makes a string longer *)

Lemma lstrip_length (s : string) : String.length (lstrip s) <= String.length s.
Proof.
  induction s as [|c s IH]; simpl; [lia|].
  destruct (isspace c); simpl; lia.
Qed.

Lemma rstrip_length (s : string) : String.length (rstrip s) <= String.length s.
Proof.
  induction s as [|c s IH]; simpl; [lia|].
  destruct (isspace c && is_empty (rstrip s)); simpl; lia.
Qed.

Lemma strip_fixed_lstrip (t : string) : strip t = t -> lstrip t = t.
Proof.
  unfold strip. intros H. destruct t as [|c t]; [reflexivity|].
  simpl in *. destruct (isspace c); [|reflexivity].
  pose proof (rstrip_length (lstrip t)) as H1.
  pose proof (lstrip_length t) as H2.
  rewrite H in H1. simpl in H1. lia.
Qed.

Lemma strip_fixed_rstrip (t : string) : strip t = t -> rstrip t = t.
Proof.
  intros H. pose proof (strip_fixed_lstrip t H) as L.
  unfold strip in H. rewrite L in H. exact H.
Qed.

Lemma rstrip_app (a t : string) :
  is_empty (rstrip t) = false ->
  rstrip (String.append a t) = String.append a (rstrip t).
Proof.
  intros Hne. induction a as [|c a IH]; simpl; [reflexivity|].
  rewrite IH, (is_empty_app a _ Hne), andb_false_r. reflexivity.
Qed.

(** *** Characters that a string does not contain *)

Lemma contains_app (c : ascii) (a b : string) :
  contains c (String.append a b) = contains c a || contains c b.
Proof.
  induction a as [|d a IH]; simpl; [reflexivity|].
  rewrite IH, orb_assoc. reflexivity.
Qed.

Lemma lstrip_lacks (c : ascii) (s : string) :
  contains c s = false -> contains c (lstrip s) = false.
Proof.
  induction s as [|d s IH]; simpl; [auto|].
  intros H. apply orb_false_elim in H as [H1 H2].
  destruct (isspace d); [auto|]. simpl. rewrite H1, H2. reflexivity.
Qed.

Lemma rstrip_lacks (c : ascii) (s : string) :
  contains c s = false -> contains c (rstrip s) = false.
Proof.
  induction s as [|d s IH]; simpl; [auto|].
  intros H. apply orb_false_elim in H as [H1 H2].
  destruct (isspace d && is_empty (rstrip s)); [reflexivity|].
  simpl. rewrite H1, (IH H2). reflexivity.
Qed.

Lemma strip_lacks (c : ascii) (s : string) :
  contains c s = false -> contains c (strip s) = false.
Proof. intros H. apply rstrip_lacks, lstrip_lacks, H. Qed.

Lemma replace_from_skip (k : nat) (old new : string) (c : ascii) (s : string) :
  replace_from (S k) old new (String c s) = replace_from k old new s.
Proof. reflexivity. Qed.

Lemma replace_from_scan (old new : string) (c : ascii) (s : string) :
  replace_from 0 old new (String c s)
  = if String.prefix old (String c s)
    then String.append new (replace_from (String.length old - 1) old new s)
    else String c (replace_from 0 old new s).
Proof. reflexivity. Qed.

Lemma remove_lacks (c : ascii) (old s : string) :
  forall skip, contains c s = false ->
               contains c (replace_from skip old EmptyString s) = false.
Proof.
  induction s as [|d s IH]; intros skip H; [reflexivity|].
  cbn [contains] in H. apply orb_false_elim in H as [H1 H2].
  destruct skip as [|k].
  - rewrite replace_from_scan.
    destruct (String.prefix old (String d s)).
    + cbn [String.append]. apply IH, H2.
    + cbn [contains]. rewrite H1, (IH 0 H2). reflexivity.
  - rewrite replace_from_skip. apply IH, H2.
Qed.

Lemma join_lacks (c : ascii) (sep : string) (parts : list string) :
  contains c sep = false ->
  Forall (fun p => contains c p = false) parts ->
  contains c (join sep parts) = false.
Proof.
  intros Hsep Hall. unfold join.
  induction Hall as [|p parts Hp Hall IH]; [reflexivity|].
  destruct parts as [|q parts]; [exact Hp|].
  change (contains c (String.append p (String.append sep (String.concat sep (q :: parts)))) = false).
  rewrite !contains_app, Hp, Hsep, IH. reflexivity.
Qed.

Lemma split_on_cons (sep : ascii) (s : string) :
  exists h t, split_on sep s = h :: t.
Proof.
  induction s as [|c s [h [t IH]]]; simpl; [eauto|].
  destruct (Ascii.eqb c sep); [eauto|]. rewrite IH. eauto.
Qed.

Lemma split_on_lacks (sep : ascii) (s : string) :
  Forall (fun p => contains sep p = false) (split_on sep s).
Proof.
  induction s as [|c s IH]; simpl; [repeat constructor|].
  destruct (Ascii.eqb c sep) eqn:E; [constructor; [reflexivity | exact IH]|].
  destruct (split_on sep s) as [|h t]; [repeat constructor; simpl; rewrite E; reflexivity|].
  inversion IH; subst. constructor; [|assumption].
  simpl. rewrite E. assumption.
Qed.

Lemma split_on_whole (sep : ascii) (s : string) :
  contains sep s = false -> split_on sep s = [s].
Proof.
  induction s as [|c s IH]; simpl; [reflexivity|].
  intros H. apply orb_false_elim in H as [H1 H2].
  rewrite H1, (IH H2). reflexivity.
Qed.

End PyStrFacts.

(** ** The segmenter follows its description *)

Module SegmenterFacts.
Import PyStr Segmenter SegmenterSpec.

Lemma wf_init : wf init.
Proof. exact I. Qed.

Lemma wf_step (st : state) (raw : string) : wf st -> wf (step st raw).
Proof.
  intros Hwf. unfold step.
  destruct (is_empty (strip raw)); [exact Hwf|].
  destruct (startswith (strip raw) "Person A:");
    [split; [reflexivity | discriminate] |].
  destruct (startswith (strip raw) "Person B:");
    [split; [reflexivity | discriminate] |].
  unfold wf in *. destruct (current_speaker st) as [sp|] eqn:E;
    [|cbn; rewrite E; exact I].
  destruct Hwf as [Ht Hne]. rewrite Ht. cbn. split; [exact Ht|].
  destruct (current_text st); discriminate.
Qed.

Lemma emit_open (st : state) (sp : string) :
  wf st -> current_speaker st = Some sp ->
  emit st = segments st ++ [(sp, join " " (current_text st))].
Proof.
  unfold wf, emit. intros Hwf E. rewrite E in *. destruct Hwf as [Ht Hne].
  rewrite Ht. destruct (current_text st); [congruence | reflexivity].
Qed.

Lemma emit_closed (st : state) :
  current_speaker st = None -> emit st = segments st.
Proof. unfold emit. intros ->. reflexivity. Qed.

Lemma emit_fold (lines : list string) :
  forall st, wf st -> emit (fold_left step lines st) = emitted_from st lines.
Proof.
  induction lines as [|raw rest IH]; intros st Hwf.
  - simpl. unfold emitted_from. simpl.
    destruct (current_speaker st) as [sp|] eqn:E.
    + rewrite (emit_open st sp Hwf E), app_nil_r. reflexivity.
    + rewrite (emit_closed st E), app_nil_r. reflexivity.
  - simpl fold_left. rewrite (IH _ (wf_step st raw Hwf)).
    unfold emitted_from. simpl gather.
    destruct (gather rest) as [waiting segs] eqn:G.
    unfold step, classify, open_segment.
    destruct (is_empty (strip raw)); [reflexivity|].
    destruct (startswith (strip raw) "Person A:").
    { cbn [current_speaker segments current_text fst snd app].
      destruct (current_speaker st) as [sp|] eqn:E.
      - rewrite (emit_open st sp Hwf E), app_nil_r, <- app_assoc. reflexivity.
      - rewrite (emit_closed st E). reflexivity. }
    destruct (startswith (strip raw) "Person B:").
    { cbn [current_speaker segments current_text fst snd app].
      destruct (current_speaker st) as [sp|] eqn:E.
      - rewrite (emit_open st sp Hwf E), app_nil_r, <- app_assoc. reflexivity.
      - rewrite (emit_closed st E). reflexivity. }
    destruct (current_speaker st) as [sp|] eqn:E.
    + unfold wf in Hwf. rewrite E in Hwf. destruct Hwf as [Ht _]. rewrite Ht.
      cbn [current_speaker segments current_text fst snd].
      rewrite <- app_assoc. reflexivity.
    + cbn [fst snd]. rewrite E. reflexivity.
Qed.

Lemma gather_well_formed (lines : list string) :
  Forall (fun l => contains newline l = false) lines ->
  Forall (fun l => contains newline l = false) (fst (gather lines))
  /\ Forall well_formed (snd (gather lines)).
Proof.
  induction 1 as [|raw rest Hraw Hrest [IHw IHs]]; simpl; [split; constructor|].
  destruct (gather rest) as [waiting segs]. simpl in IHw, IHs.
  pose proof (PyStrFacts.strip_lacks newline raw Hraw) as Hline.
  unfold classify.
  destruct (is_empty (strip raw)); [split; assumption|].
  assert (Hjoin : forall label,
             contains newline
               (join " " (strip (replace (strip raw) label "") :: waiting)) = false).
  { intros label. apply PyStrFacts.join_lacks; [reflexivity|].
    constructor; [|exact IHw].
    apply PyStrFacts.strip_lacks, PyStrFacts.remove_lacks, Hline. }
  destruct (startswith (strip raw) "Person A:").
  { split; [constructor|]. constructor; [|exact IHs].
    split; [left; reflexivity | apply Hjoin]. }
  destruct (startswith (strip raw) "Person B:").
  { split; [constructor|]. constructor; [|exact IHs].
    split; [right; reflexivity | apply Hjoin]. }
  split; [constructor; assumption | exact IHs].
Qed.

Lemma parse_script_well_formed (script : string) :
  Forall well_formed (parse_script script).
Proof.
  unfold parse_script. rewrite (emit_fold _ _ wf_init).
  unfold emitted_from. simpl.
  apply gather_well_formed, PyStrFacts.split_on_lacks.
Qed.

(** Segmenting one line that opens with a label. *)
Lemma parse_one_line (line : string) :
  contains newline line = false ->
  parse_script line = emit (step init line).
Proof.
  intros H. unfold parse_script, split_lines.
  rewrite (PyStrFacts.split_on_whole _ _ H). reflexivity.
Qed.

Lemma strip_rejoined (prefix t : string) :
  lstrip (String.append prefix t) = String.append prefix t ->
  is_empty t = false -> strip t = t ->
  strip (String.append prefix t) = String.append prefix t.
Proof.
  intros Hl Hne Hs. unfold strip. rewrite Hl.
  pose proof (PyStrFacts.strip_fixed_rstrip t Hs) as Hr.
  rewrite PyStrFacts.rstrip_app; rewrite Hr; [reflexivity | exact Hne].
Qed.

Lemma roundtrip_A (t : string) :
  contains newline t = false -> strip t = t ->
  replace t "Person A:" "" = t ->
  parse_script (rejoin ("Person A", t)) = [("Person A", t)].
Proof.
  intros Hnl Hs Hr. destruct (is_empty t) eqn:Ht.
  { apply PyStrFacts.is_empty_true in Ht. subst t. vm_compute. reflexivity. }
  change (rejoin ("Person A", t)) with (String.append "Person A: " t).
  rewrite parse_one_line by exact Hnl.
  unfold step.
  rewrite (strip_rejoined "Person A: " t eq_refl Ht Hs).
  change (is_empty (String.append "Person A: " t)) with false.
  change (startswith (String.append "Person A: " t) "Person A:") with true.
  cbv iota. unfold open_segment, emit. cbn [current_speaker current_text segments].
  change (replace (String.append "Person A: " t) "Person A:" "")
    with (String " " (replace t "Person A:" "")).
  rewrite Hr.
  change (strip (String " " t)) with (strip t). rewrite Hs. reflexivity.
Qed.

Lemma roundtrip_B (t : string) :
  contains newline t = false -> strip t = t ->
  replace t "Person B:" "" = t ->
  parse_script (rejoin ("Person B", t)) = [("Person B", t)].
Proof.
  intros Hnl Hs Hr. destruct (is_empty t) eqn:Ht.
  { apply PyStrFacts.is_empty_true in Ht. subst t. vm_compute. reflexivity. }
  change (rejoin ("Person B", t)) with (String.append "Person B: " t).
  rewrite parse_one_line by exact Hnl.
  unfold step.
  rewrite (strip_rejoined "Person B: " t eq_refl Ht Hs).
  change (is_empty (String.append "Person B: " t)) with false.
  change (startswith (String.append "Person B: " t) "Person A:") with false.
  change (startswith (String.append "Person B: " t) "Person B:") with true.
  cbv iota. unfold open_segment, emit. cbn [current_speaker current_text segments].
  change (replace (String.append "Person B: " t) "Person B:" "")
    with (String " " (replace t "Person B:" "")).
  rewrite Hr.
  change (strip (String " " t)) with (strip t). rewrite Hs. reflexivity.
Qed.

End SegmenterFacts.

(** ** The synthesizer loop and its summary *)

Module SynthFacts.
Import PyStr Synth SynthSpec.

Lemma omap_cons_list {A B : Type} (f : A -> option B) (x : A) (l : list A) :
  omap f (x :: l) = option_list (f x) ++ omap f l.
Proof. simpl. destruct (f x); reflexivity. Qed.

Lemma omap_pointwise {A B : Type} (f g : A -> option B) (l : list A) :
  (forall x, In x l -> f x = g x) -> omap f l = omap g l.
Proof.
  induction l as [|x l IH]; intros H; [reflexivity|].
  rewrite !omap_cons_list, (H x (or_introl eq_refl)), IH; [reflexivity|].
  intros y Hy. apply H. right. exact Hy.
Qed.

Lemma omap_none {A B : Type} (f : A -> option B) (l : list A) :
  (forall x, In x l -> f x = None) -> omap f l = [].
Proof.
  induction l as [|x l IH]; intros H; [reflexivity|].
  rewrite omap_cons_list, (H x (or_introl eq_refl)), IH; [reflexivity|].
  intros y Hy. apply H. right. exact Hy.
Qed.

(** The requests a call sends are those of its text with the voice bound to
    the speaker. *)
Lemma call_tts_requests (sv : services) (o : options) (i : nat) (text speaker : string) :
  snd (call_tts sv o i text speaker) = requests_for sv o (i, text, voice_for o speaker).
Proof.
  unfold call_tts, requests_for, voice_for, text_to_speech_elevenlabs,
    text_to_speech_openai.
  destruct (use_elevenlabs o).
  - destruct (key_missing (elevenlabs_api_key sv)); [reflexivity|].
    destruct (String.eqb speaker "Person A");
      (match goal with
       | |- context [post sv ?r] =>
           destruct (post sv r) as [msg|status content err]; [reflexivity|];
           destruct (status =? 200)%Z; [reflexivity|];
           destruct (sdk sv r); reflexivity
       end).
  - destruct (openai_client sv); destruct (String.eqb speaker "Person A"); reflexivity.
Qed.

Lemma requests_carry (sv : services) (o : options) (request : call) (c : remote_call) :
  In c (requests_for sv o request) -> request_of c = request.
Proof.
  unfold requests_for.
  destruct (use_elevenlabs o).
  - destruct (key_missing (elevenlabs_api_key sv)); [intros []|].
    destruct (post sv request) as [msg|status content err].
    + intros [<- | []]. reflexivity.
    + destruct (status =? 200)%Z.
      * intros [<- | []]. reflexivity.
      * destruct (sdk sv request); cbn; intros H;
          repeat (destruct H as [<- | H]; [reflexivity|]); destruct H.
  - destruct (openai_client sv); [|intros []].
    intros [<- | []]. reflexivity.
Qed.

Lemma requests_at_most_two (sv : services) (o : options) (request : call) :
  length (requests_for sv o request) <= 2.
Proof.
  unfold requests_for.
  destruct (use_elevenlabs o).
  - destruct (key_missing (elevenlabs_api_key sv)); [cbn; lia|].
    destruct (post sv request) as [msg|status content err]; [cbn; lia|].
    destruct (status =? 200)%Z; [cbn; lia|].
    destruct (sdk sv request); cbn; lia.
  - destruct (openai_client sv); cbn; lia.
Qed.

(** One iteration adds at most one clip and at most one failure, as the
    verdict on the segment says, and the requests of the segment. *)
Lemma loop_step_effect (sv : services) (o : options) (st : loop_state)
    (item : nat * (string * string)) :
  loop_step sv o st item
  = {| audio_segments := audio_segments st ++ option_list (clip_of sv o item);
       failed_segments := failed_segments st ++ option_list (failure_of sv o item);
       calls := calls st ++ calls_of sv o item |}.
Proof.
  destruct st as [audio failed sent]. destruct item as [i [speaker dialogue]].
  unfold loop_step, clip_of, failure_of, calls_of, verdict_of, record_failure.
  cbn [audio_segments failed_segments calls fst snd].
  destruct (is_empty (clean_dialogue dialogue)).
  { cbn [option_list]. rewrite !app_nil_r. reflexivity. }
  rewrite <- call_tts_requests.
  destruct (call_tts sv o i (clean_dialogue dialogue) speaker)
    as [[[[|b clip]|]|e] requests];
    cbn [fst snd option_list length Nat.eqb negb]; rewrite ?app_nil_r; reflexivity.
Qed.

Lemma fold_loop (sv : services) (o : options) (items : list (nat * (string * string))) :
  forall st,
    fold_left (loop_step sv o) items st
    = {| audio_segments := audio_segments st ++ omap (clip_of sv o) items;
         failed_segments := failed_segments st ++ omap (failure_of sv o) items;
         calls := calls st ++ flat_map (calls_of sv o) items |}.
Proof.
  induction items as [|item items IH]; intros st.
  - destruct st. simpl. rewrite !app_nil_r. reflexivity.
  - simpl fold_left. rewrite IH, loop_step_effect.
    cbn [audio_segments failed_segments calls flat_map].
    rewrite !omap_cons_list, <- !app_assoc. reflexivity.
Qed.

Lemma run_loop_summary (sv : services) (o : options) (segs : list (string * string)) :
  run_loop sv o segs
  = {| audio_segments := successful_clips sv o segs;
       failed_segments := failed_positions sv o segs;
       calls := expected_calls sv o segs |}.
Proof. unfold run_loop. rewrite fold_loop. reflexivity. Qed.

Lemma generate_summary (sv : services) (o : options) (segs : list (string * string)) :
  generate_audio_for_segments sv o segs
  = match successful_clips sv o segs with
    | [] => Raise (AllSegmentsFailed (failed_positions sv o segs))
    | clip :: clips => Return (clip :: clips)
    end.
Proof.
  unfold generate_audio_for_segments. rewrite run_loop_summary.
  cbn [audio_segments failed_segments].
  destruct (successful_clips sv o segs); reflexivity.
Qed.

(** With every segment attempted and none succeeding, the failures are
    the positions 1..N. *)
Lemma all_fail_positions (sv : services) (o : options) (segs : list (string * string)) :
  forall k,
    omap (clip_of sv o) (combine (seq k (length segs)) segs) = [] ->
    Forall (fun seg => speaks seg = true) segs ->
    omap (failure_of sv o) (combine (seq k (length segs)) segs)
    = seq (k + 1) (length segs).
Proof.
  induction segs as [|[speaker dialogue] segs IH]; intros k Hnone Hall; [reflexivity|].
  inversion Hall as [|? ? Hseg Hrest]; subst.
  cbn [length seq combine] in *. rewrite omap_cons_list in Hnone.
  rewrite omap_cons_list.
  apply app_eq_nil in Hnone as [Hhead Htail].
  rewrite (IH (S k) Htail Hrest).
  replace (S k + 1) with (S (k + 1)) by lia.
  unfold clip_of in Hhead. unfold failure_of.
  unfold speaks in Hseg. cbn [snd] in Hseg.
  unfold verdict_of in *.
  destruct (is_empty (clean_dialogue dialogue)); [discriminate|].
  destruct (fst (call_tts sv o k (clean_dialogue dialogue) speaker)) as [[[|b clip]|]|e];
    try discriminate; reflexivity.
Qed.

(** Without the credential of the chosen provider every call raises
    [ValueError] before any request is sent, so every segment with
    something to say fails. *)
Lemma keyless_call (sv : services) (o : options) (i : nat) (text speaker : string) :
  credential_missing sv o = true ->
  exists msg, call_tts sv o i text speaker = (Raise (ValueError msg), []).
Proof.
  unfold credential_missing, call_tts, text_to_speech_elevenlabs, text_to_speech_openai.
  destruct (use_elevenlabs o); intros H.
  - rewrite H. eauto.
  - destruct (openai_client sv); [discriminate | eauto].
Qed.

Lemma keyless_verdict (sv : services) (o : options) (item : nat * (string * string)) :
  credential_missing sv o = true ->
  clip_of sv o item = None
  /\ failure_of sv o item = (if speaks (snd item) then Some (fst item + 1) else None).
Proof.
  intros Hkey. destruct item as [i [speaker dialogue]].
  unfold clip_of, failure_of, verdict_of, speaks. cbn [fst snd].
  destruct (is_empty (clean_dialogue dialogue)); [split; reflexivity|].
  destruct (keyless_call sv o i (clean_dialogue dialogue) speaker Hkey) as [msg ->].
  split; reflexivity.
Qed.

Lemma keyless_run (sv : services) (o : options) (segs : list (string * string)) :
  credential_missing sv o = true ->
  successful_clips sv o segs = []
  /\ failed_positions sv o segs = attempted_positions segs.
Proof.
  intros Hkey. split.
  - apply omap_none. intros item _. apply (keyless_verdict sv o item Hkey).
  - apply omap_pointwise. intros item _. apply (keyless_verdict sv o item Hkey).
Qed.

Lemma keyless_requests (sv : services) (o : options) (segs : list (string * string)) :
  credential_missing sv o = true -> expected_calls sv o segs = [].
Proof.
  intros Hkey. unfold expected_calls.
  induction (enumerate segs) as [|[i [speaker dialogue]] items IH]; [reflexivity|].
  cbn [flat_map]. rewrite IH, app_nil_r. unfold calls_of.
  destruct (is_empty (clean_dialogue dialogue)); [reflexivity|].
  rewrite <- call_tts_requests.
  destruct (keyless_call sv o i (clean_dialogue dialogue) speaker Hkey) as [msg ->].
  reflexivity.
Qed.

(** Whatever the services answer, the exception that leaves the function
    is the all-failed one. *)
Lemma generate_raises_all_failed (sv : services) (o : options)
    (segs : list (string * string)) (e : exn) :
  generate_audio_for_segments sv o segs = Raise e ->
  e = AllSegmentsFailed (failed_positions sv o segs).
Proof.
  rewrite generate_summary. destruct (successful_clips sv o segs); congruence.
Qed.

End SynthFacts.

(** C6.  For every transcript, [parse_script] returns what the description
    of the segmenter gives: lines are read top to bottom, blank lines are
    skipped, a line starting with one of the two labels "Person A:" and
    "Person B:" closes the open segment and opens a new one, any other line
    extends the open segment, lines above the first label are dropped, and
    the texts of a segment are joined by single spaces; on the transcript
    "Person A: hi / Person B: hey / yaar" the result is
    [("Person A", "hi"); ("Person B", "hey yaar")]. *)
Theorem parse_script_follows_description :
  (forall script : string,
      Segmenter.parse_script script = SegmenterSpec.segment_script script)
  /\ Segmenter.parse_script
       (String.append "Person A: hi"
          (String PyStr.newline
             (String.append "Person B: hey" (String PyStr.newline "yaar"))))
     = [("Person A", "hi"); ("Person B", "hey yaar")].
Proof.
  split.
  - intros script. unfold Segmenter.parse_script, SegmenterSpec.segment_script.
    rewrite (SegmenterFacts.emit_fold _ _ SegmenterFacts.wf_init).
    reflexivity.
  - vm_compute. reflexivity.
Qed.

(** C8, as stated, fails.  The transcript "Person A:" / "foo" gives the
    segment ("Person A", " foo"), whose text starts with a space, and
    "Person A: hi" / "see Person A: x" gives a segment whose text contains
    its own label; written back as "<label>: <text>" and segmented again,
    neither comes back unchanged. *)
Lemma resegmenting_is_not_identity :
  (In ("Person A", " foo")
      (Segmenter.parse_script (String.append "Person A:" (String PyStr.newline "foo")))
   /\ Segmenter.parse_script (SegmenterSpec.rejoin ("Person A", " foo"))
      <> [("Person A", " foo")])
  /\ (In ("Person A", "hi see Person A: x")
         (Segmenter.parse_script
            (String.append "Person A: hi" (String PyStr.newline "see Person A: x")))
      /\ Segmenter.parse_script (SegmenterSpec.rejoin ("Person A", "hi see Person A: x"))
         <> [("Person A", "hi see Person A: x")]).
Proof.
  split; (split; [vm_compute; left; reflexivity | vm_compute; discriminate]).
Qed.

(** C8, amended.  For every segment (speaker, text) produced by
    [parse_script] whose text has no leading or trailing whitespace and
    does not contain the speaker's own label "<speaker>:", writing the
    segment back as "<speaker>: <text>" and segmenting that line yields
    exactly that one segment. *)
Theorem resegmenting_clean_segment (script speaker text : string) :
  In (speaker, text) (Segmenter.parse_script script) ->
  PyStr.strip text = text ->
  PyStr.replace text (SegmenterSpec.label_of speaker) "" = text ->
  Segmenter.parse_script (SegmenterSpec.rejoin (speaker, text)) = [(speaker, text)].
Proof.
  intros Hin Hstrip Hlabel.
  pose proof (proj1 (List.Forall_forall _ _)
                (SegmenterFacts.parse_script_well_formed script) _ Hin) as [Hsp Hnl].
  simpl in Hsp, Hnl. destruct Hsp as [-> | ->].
  - apply SegmenterFacts.roundtrip_A; assumption.
  - apply SegmenterFacts.roundtrip_B; assumption.
Qed.

Lemma resegmenting_clean_segment_witness :
  Segmenter.parse_script (SegmenterSpec.rejoin ("Person B", "hey yaar"))
  = [("Person B", "hey yaar")].
Proof.
  apply (resegmenting_clean_segment
           (String.append "Person A: hi"
              (String PyStr.newline
                 (String.append "Person B: hey" (String PyStr.newline "yaar"))))
           "Person B" "hey yaar").
  - vm_compute. right. left. reflexivity.
  - vm_compute. reflexivity.
  - vm_compute. reflexivity.
Defined.

(** C1.  Whatever the services answer, [generate_audio_for_segments]
    returns the clips of the segments whose synthesis succeeded, in segment
    order and with nothing in place of the failed ones, as soon as there is
    at least one such clip; when there is none it raises the all-failed
    exception carrying the one-based positions of the segments whose
    synthesis failed, which are all the positions 1..N when every segment
    had something to say. *)
Theorem synthesizer_continues_on_error
    (sv : Synth.services) (o : Synth.options) (segs : list (string * string)) :
  (SynthSpec.successful_clips sv o segs <> [] ->
   Synth.generate_audio_for_segments sv o segs
   = Return (SynthSpec.successful_clips sv o segs))
  /\ (SynthSpec.successful_clips sv o segs = [] ->
      Synth.generate_audio_for_segments sv o segs
      = Raise (AllSegmentsFailed (SynthSpec.failed_positions sv o segs)))
  /\ (SynthSpec.successful_clips sv o segs = [] ->
      Forall (fun seg => SynthSpec.speaks seg = true) segs ->
      SynthSpec.failed_positions sv o segs = seq 1 (length segs)).
Proof.
  rewrite SynthFacts.generate_summary. repeat split.
  - intros H. destruct (SynthSpec.successful_clips sv o segs); [congruence | reflexivity].
  - intros ->. reflexivity.
  - intros Hnone Hall. apply (SynthFacts.all_fail_positions sv o segs 0 Hnone Hall).
Qed.

Lemma synthesizer_continues_on_error_witness :
  Synth.generate_audio_for_segments Samples.flaky Synth.default_options Samples.five
  = Return [Samples.tone 0; Samples.tone 2; Samples.tone 4]
  /\ Synth.generate_audio_for_segments Samples.down Synth.default_options Samples.five
     = Raise (AllSegmentsFailed [1; 2; 3; 4; 5]).
Proof.
  split.
  - rewrite (proj1 (synthesizer_continues_on_error
                      Samples.flaky Synth.default_options Samples.five)).
    + vm_compute. reflexivity.
    + vm_compute. discriminate.
  - rewrite (proj1 (proj2 (synthesizer_continues_on_error
                             Samples.down Synth.default_options Samples.five))).
    + rewrite (proj2 (proj2 (synthesizer_continues_on_error
                               Samples.down Synth.default_options Samples.five))).
      * reflexivity.
      * vm_compute. reflexivity.
      * vm_compute. repeat constructor.
    + vm_compute. reflexivity.
Defined.

(** A run of two segments without an API key: no request is sent, both
    segments are recorded as failed, and the exception that reaches the
    caller is the all-failed one, not the missing-key [ValueError]. *)
Lemma missing_key_becomes_segment_failures :
  Synth.failed_segments
    (Synth.run_loop Samples.keyless Synth.default_options Samples.duo) = [1; 2]
  /\ Synth.calls (Synth.run_loop Samples.keyless Synth.default_options Samples.duo) = []
  /\ Synth.generate_audio_for_segments Samples.keyless Synth.default_options Samples.duo
     = Raise (AllSegmentsFailed [1; 2])
  /\ Synth.generate_audio_for_segments Samples.keyless Synth.default_options Samples.duo
     <> Raise (ValueError Synth.missing_key_msg).
Proof. vm_compute. repeat split; discriminate. Qed.

(** C4.  What [generate_audio_for_segments] does when the credential of the
    provider in use is not configured, instead of stopping before the loop:
    the condition is found inside each synthesis call, which raises
    [ValueError] before sending anything; the handler of the loop catches
    it and records the segment as failed; so no request is sent, every
    segment with something to say is recorded as failed, the function
    raises the all-failed exception listing them, and no [ValueError] ever
    reaches the caller. *)
Theorem missing_key_fails_each_segment
    (sv : Synth.services) (o : Synth.options) (segs : list (string * string)) :
  SynthSpec.credential_missing sv o = true ->
  (forall i text speaker,
      exists msg, Synth.call_tts sv o i text speaker = (Raise (ValueError msg), []))
  /\ Synth.calls (Synth.run_loop sv o segs) = []
  /\ Synth.failed_segments (Synth.run_loop sv o segs) = SynthSpec.attempted_positions segs
  /\ Synth.generate_audio_for_segments sv o segs
     = Raise (AllSegmentsFailed (SynthSpec.attempted_positions segs))
  /\ (forall msg, Synth.generate_audio_for_segments sv o segs <> Raise (ValueError msg)).
Proof.
  intros Hkey. destruct (SynthFacts.keyless_run sv o segs Hkey) as [Hclips Hfailed].
  assert (Hgen : Synth.generate_audio_for_segments sv o segs
                 = Raise (AllSegmentsFailed (SynthSpec.attempted_positions segs))).
  { rewrite SynthFacts.generate_summary, Hclips, Hfailed. reflexivity. }
  split; [|split; [|split; [|split]]].
  - intros i text speaker. apply SynthFacts.keyless_call, Hkey.
  - rewrite SynthFacts.run_loop_summary. cbn [Synth.calls].
    apply SynthFacts.keyless_requests, Hkey.
  - rewrite SynthFacts.run_loop_summary. exact Hfailed.
  - exact Hgen.
  - intros msg. rewrite Hgen. discriminate.
Qed.

Lemma missing_key_fails_each_segment_witness :
  Synth.generate_audio_for_segments Samples.keyless Synth.default_options Samples.five
  = Raise (AllSegmentsFailed [1; 2; 3; 4; 5]).
Proof.
  apply (proj1 (proj2 (proj2 (proj2 (missing_key_fails_each_segment
                         Samples.keyless Synth.default_options Samples.five eq_refl))))).
Defined.

(** C10.  The requests that [generate_audio_for_segments] sends are, in
    segment order, those of each segment whose cleaned text is not empty,
    made with the voice bound to its speaker: the first voice when the
    speaker is exactly "Person A", the second voice for every other
    speaker.  So every request carries the text of its segment and the voice
    of that segment's speaker, and a segment whose speaker is not "Person A"
    is handled exactly as if its speaker were any other such name, "Person
    B" included: it is never skipped or rejected for its speaker. *)
Theorem voice_follows_speaker
    (sv : Synth.services) (o : Synth.options) (segs : list (string * string)) :
  Synth.calls (Synth.run_loop sv o segs) = SynthSpec.expected_calls sv o segs
  /\ (forall c, In c (Synth.calls (Synth.run_loop sv o segs)) ->
        exists i speaker dialogue,
          In (i, (speaker, dialogue)) (Synth.enumerate segs)
          /\ SynthSpec.request_of c
             = (i, Synth.clean_dialogue dialogue, SynthSpec.voice_for o speaker))
  /\ (forall st i dialogue speaker other,
        speaker <> "Person A" -> other <> "Person A" ->
        Synth.loop_step sv o st (i, (speaker, dialogue))
        = Synth.loop_step sv o st (i, (other, dialogue))).
Proof.
  assert (Hcalls : Synth.calls (Synth.run_loop sv o segs)
                   = SynthSpec.expected_calls sv o segs).
  { rewrite SynthFacts.run_loop_summary. reflexivity. }
  split; [exact Hcalls|]. split.
  - intros c Hc. rewrite Hcalls in Hc. unfold SynthSpec.expected_calls in Hc.
    apply in_flat_map in Hc as ([i [speaker dialogue]] & Hitem & Hin).
    exists i, speaker, dialogue. split; [exact Hitem|].
    unfold SynthSpec.calls_of in Hin.
    destruct (PyStr.is_empty (Synth.clean_dialogue dialogue)); [destruct Hin|].
    apply (SynthFacts.requests_carry sv o _ c Hin).
  - intros st i dialogue speaker other Hs Ho.
    apply String.eqb_neq in Hs. apply String.eqb_neq in Ho.
    unfold Synth.loop_step, Synth.call_tts. rewrite Hs, Ho. reflexivity.
Qed.

Lemma voice_follows_speaker_witness :
  Synth.calls (Synth.run_loop Samples.one_voice Synth.default_options Samples.trio)
  = [Synth.Posted (0, "hi", "21m00Tcm4TlvDq8ikWAM");
     Synth.Posted (1, "hey", "pNInz6obpgDQGcFmaJgB");
     Synth.SdkAsked (1, "hey", "pNInz6obpgDQGcFmaJgB");
     Synth.Posted (2, "so", "pNInz6obpgDQGcFmaJgB");
     Synth.SdkAsked (2, "so", "pNInz6obpgDQGcFmaJgB")]
  /\ Synth.loop_step Samples.one_voice Synth.default_options Synth.loop_init
       (2, ("Narrator", "so"))
     = Synth.loop_step Samples.one_voice Synth.default_options Synth.loop_init
         (2, ("Person B", "so")).
Proof.
  split.
  - rewrite (proj1 (voice_follows_speaker
                      Samples.one_voice Synth.default_options Samples.trio)).
    vm_compute. reflexivity.
  - apply (proj2 (proj2 (voice_follows_speaker
                           Samples.one_voice Synth.default_options Samples.trio)));
      discriminate.
Defined.

(** ** The mixer: shape and length of the track *)

Module MixerFacts.
Import Mixer MixerSpec.

Lemma normalize_app (a b : AudioSegment) :
  normalize (a ++ b) = normalize a ++ normalize b.
Proof. apply map_app. Qed.

Lemma gaps_app (a b : AudioSegment) : gaps (a ++ b) = gaps a + gaps b.
Proof. unfold gaps. rewrite List.filter_app, length_app. reflexivity. Qed.

Lemma gaps_normalize (a : AudioSegment) : gaps (normalize a) = gaps a.
Proof.
  unfold gaps. induction a as [|p a IH]; [reflexivity|].
  change (normalize (p :: a))
    with ({| what := what p; ms := ms p; gain_passes := S (gain_passes p) |}
            :: normalize a).
  cbn [List.filter].
  change (is_silence {| what := what p; ms := ms p; gain_passes := S (gain_passes p) |})
    with (is_silence p).
  destruct (is_silence p); cbn [length]; rewrite IH; reflexivity.
Qed.

(** Once a clip has failed to decode the loop has left the [try] block. *)
Lemma mix_raised (h : host) (clips : list bytes) :
  fold_left (mix_step h) clips None = None.
Proof. induction clips as [|b clips IH]; [reflexivity | exact IH]. Qed.

(** The loop, when it completes, has appended each clip and its pause. *)
Lemma mix_shape (h : host) (clips : list bytes) :
  forall acc track,
    fold_left (mix_step h) clips (Some acc) = Some track ->
    track = acc ++ flat_map (clip_then_gap h) clips
    /\ gaps track = gaps acc + length clips.
Proof.
  induction clips as [|b clips IH]; intros acc track H.
  - simpl in H. injection H as <-. simpl. rewrite app_nil_r. split; [reflexivity | lia].
  - cbn [fold_left] in H. unfold mix_step at 2 in H.
    cbn [flat_map]. unfold clip_then_gap at 1.
    destruct (from_mp3 h b) as [audio_seg|] eqn:E.
    + destruct (IH _ _ H) as (Hshape & Hgaps).
      unfold from_mp3 in E. destruct (decode h b) as [d|]; [|discriminate].
      injection E as <-.
      split.
      * rewrite Hshape. unfold add. rewrite <- !app_assoc. reflexivity.
      * rewrite Hgaps. unfold add. rewrite !gaps_app. cbn. lia.
    + rewrite mix_raised in H. discriminate.
Qed.

Lemma normalized_track_shape (h : host) (clips : list bytes) (track : AudioSegment) :
  normalized_track h clips = Some track ->
  track = gap_after_each h clips
  /\ gaps track = length clips.
Proof.
  unfold normalized_track, gap_after_each. intros H.
  destruct (fold_left (mix_step h) clips (Some empty)) as [combined|] eqn:E;
    [|discriminate].
  destruct (export_ok h); [|discriminate]. injection H as <-.
  destruct (mix_shape h clips _ _ E) as (Hshape & Hgaps).
  rewrite gaps_normalize. split.
  - rewrite Hshape. reflexivity.
  - exact Hgaps.
Qed.

(** The printed estimate is zero up to 5000 bytes and at least one above. *)
Lemma estimate_zero (n : Z) :
  (0 <= n)%Z ->
  (round_half_even n 10000 = 0%Z <-> (n <= 5000)%Z)
  /\ ((5000 < n)%Z -> (1 <= round_half_even n 10000)%Z).
Proof.
  intros Hn. unfold round_half_even.
  pose proof (Z.div_mod n 10000 ltac:(lia)) as Hdm.
  pose proof (Z.mod_pos_bound n 10000 ltac:(lia)) as Hr.
  assert (Hq : (0 <= n / 10000)%Z) by (apply Z.div_pos; lia).
  set (q := (n / 10000)%Z) in *. set (r := (n mod 10000)%Z) in *.
  destruct (2 * r <? 10000)%Z eqn:E1; [apply Z.ltb_lt in E1 | apply Z.ltb_ge in E1].
  { split; [split|]; lia. }
  destruct (10000 <? 2 * r)%Z eqn:E2; [apply Z.ltb_lt in E2 | apply Z.ltb_ge in E2].
  { split; [split|]; lia. }
  destruct (Z.even q) eqn:E3.
  - destruct (Z.eq_dec q 0%Z) as [Hz|Hnz].
    + split; [split|]; lia.
    + split; [split|]; lia.
  - assert (q <> 0%Z) by (intros ->; discriminate).
    split; [split|]; lia.
Qed.

End MixerFacts.

(** C5, as stated, fails.  On an empty clip list [combine_and_export_audio]
    returns [None] and writes nothing; it does not raise.  And on a list of
    one clip of one byte, on a machine without audio tooling, the file is
    written but the duration it reports is "~0 seconds". *)
Lemma empty_input_returns_none :
  Mixer.result (Mixer.combine_and_export_audio Samples.studio [] "out.mp3") = Return None
  /\ Mixer.written (Mixer.combine_and_export_audio Samples.studio [] "out.mp3") = None
  /\ Mixer.result
       (Mixer.combine_and_export_audio Samples.bare [Samples.tone 0] "out.mp3")
     = Return (Some "out.mp3")
  /\ Mixer.reported_duration
       (Mixer.combine_and_export_audio Samples.bare [Samples.tone 0] "out.mp3")
     = Some (Mixer.Estimate 0).
Proof. repeat split; reflexivity. Qed.

(** C5, amended.  On an empty clip list [combine_and_export_audio] returns
    [None] without raising and writes nothing.  On a non-empty list it
    writes the output and returns its name whenever the normalization path
    completes, reporting the length pydub gives the track; when that path
    fails and the output file can be opened, it writes the raw concatenation
    and returns the file name, and the duration it reports is the number of
    bytes divided by 10000 and rounded to whole seconds: 0 when the clips
    total at most 5000 bytes, at least 1 above. *)
Theorem exporter_outcomes (h : Mixer.host) (clips : list bytes) (out : string) :
  Mixer.combine_and_export_audio h [] out
  = {| Mixer.result := Return None; Mixer.written := None;
       Mixer.reported_duration := None |}
  /\ (clips <> [] ->
      forall track, Mixer.normalized_track h clips = Some track ->
        Mixer.combine_and_export_audio h clips out
        = {| Mixer.result := Return (Some out);
             Mixer.written := Some (Mixer.Encoded track);
             Mixer.reported_duration := Some (Mixer.TrackLength track) |})
  /\ (clips <> [] ->
      Mixer.normalized_track h clips = None -> Mixer.open_ok h = true ->
      exists seconds,
        Mixer.combine_and_export_audio h clips out
        = {| Mixer.result := Return (Some out);
             Mixer.written := Some (Mixer.Raw (concat clips));
             Mixer.reported_duration := Some (Mixer.Estimate seconds) |}
        /\ seconds = Mixer.round_half_even (Z.of_nat (length (concat clips))) 10000
        /\ (seconds = 0%Z <-> length (concat clips) <= 5000)
        /\ (5000 < length (concat clips) -> (1 <= seconds)%Z)).
Proof.
  split; [reflexivity|]. split.
  - intros Hne track Htrack.
    destruct clips as [|clip clips]; [congruence|].
    unfold Mixer.combine_and_export_audio. rewrite Htrack. reflexivity.
  - intros Hne Htrack Hopen.
    destruct clips as [|clip clips]; [congruence|].
    unfold Mixer.combine_and_export_audio, Mixer.fallback.
    rewrite Htrack, Hopen. eexists. split; [reflexivity|]. split; [reflexivity|].
    destruct (MixerFacts.estimate_zero (Z.of_nat (length (concat (clip :: clips))))
                ltac:(lia)) as [Hzero Hone].
    split; [|intros H; apply Hone; lia].
    rewrite Hzero. lia.
Qed.

Lemma exporter_outcomes_witness :
  exists seconds,
    Mixer.combine_and_export_audio Samples.bare [Samples.tone 0; Samples.tone 1] "out.mp3"
    = {| Mixer.result := Return (Some "out.mp3");
         Mixer.written := Some (Mixer.Raw (concat [Samples.tone 0; Samples.tone 1]));
         Mixer.reported_duration := Some (Mixer.Estimate seconds) |}
    /\ seconds
       = Mixer.round_half_even
           (Z.of_nat (length (concat [Samples.tone 0; Samples.tone 1]))) 10000
    /\ (seconds = 0%Z <-> length (concat [Samples.tone 0; Samples.tone 1]) <= 5000)
    /\ (5000 < length (concat [Samples.tone 0; Samples.tone 1]) -> (1 <= seconds)%Z).
Proof.
  apply (proj2 (proj2 (exporter_outcomes
                         Samples.bare [Samples.tone 0; Samples.tone 1] "out.mp3"))
           ltac:(discriminate) eq_refl eq_refl).
Defined.

(** C7.  What the normalization path really builds: every clip, normalized
    on its own, is followed by a 300 ms pause, the last clip included, and
    the whole is normalized once more; a track of N clips therefore holds N
    pauses and ends with one. *)
Theorem mixer_pauses_after_every_clip
    (h : Mixer.host) (clips : list bytes) (track : Mixer.AudioSegment) :
  Mixer.normalized_track h clips = Some track ->
  track = MixerSpec.gap_after_each h clips
  /\ MixerSpec.gaps track = length clips.
Proof.
  intros H. destruct (MixerFacts.normalized_track_shape h clips track H) as (Hs & Hg).
  split; assumption.
Qed.

Lemma mixer_pauses_after_every_clip_witness :
  MixerSpec.gap_after_each Samples.studio [Samples.tone 0]
  = [ {| Mixer.what := Mixer.Decoded (Samples.tone 0); Mixer.ms := 1000;
         Mixer.gain_passes := 2 |};
      {| Mixer.what := Mixer.Silence; Mixer.ms := 300; Mixer.gain_passes := 1 |} ]
  /\ MixerSpec.gaps (MixerSpec.gap_after_each Samples.studio [Samples.tone 0]) = 1
  /\ MixerSpec.gaps (MixerSpec.gaps_between Samples.studio [Samples.tone 0]) = 0.
Proof.
  destruct (mixer_pauses_after_every_clip Samples.studio [Samples.tone 0] _ eq_refl)
    as [Hshape Hgaps].
  rewrite <- Hshape. split; [reflexivity|]. split; [exact Hgaps | reflexivity].
Defined.

(** ** The paginator *)

Module TeamsFacts.
Import PyStr Teams TeamsSpec.

Section Loop.
Context {message : Type}.
Implicit Types (answers : list (answer message)) (acc : list message).

Lemma served_continues (a : answer message) :
  continues a = true ->
  exists data u, served a = Some data /\ nextLink data = Some u /\ truthy u = true
                 /\ link_request a = Some (u, None).
Proof.
  unfold continues, link_request.
  destruct (served a) as [data|] eqn:Hs; [|discriminate].
  destruct (nextLink data) as [u|] eqn:Hn; [|discriminate].
  destruct (truthy u) eqn:Hu; [|discriminate].
  intros _. exists data, u. repeat split; auto.
Qed.

(** The loop after an answer that is a page. *)
Lemma fetch_page (a : answer message) (data : page message) answers
    (u : string) (params : option query) acc (sent : list request) :
  truthy u = true -> served a = Some data ->
  fetch_loop (a :: answers) (Some u) params acc sent
  = fetch_loop answers (nextLink data) None (acc ++ get_value data)
      (sent ++ [(u, params)]).
Proof.
  intros Hu Hs. cbn [fetch_loop]. rewrite Hu.
  destruct a as [|status_code d]; [discriminate|].
  unfold served in Hs. destruct (raises_for_status status_code); [discriminate|].
  injection Hs as ->. reflexivity.
Qed.

(** The loop after an answer that is a failure. *)
Lemma fetch_failure (a : answer message) answers
    (u : string) (params : option query) acc (sent : list request) :
  truthy u = true -> served a = None ->
  fetch_loop (a :: answers) (Some u) params acc sent
  = Some (Return acc, sent ++ [(u, params)]).
Proof.
  intros Hu Hs. cbn [fetch_loop]. rewrite Hu.
  destruct a as [|status_code d]; [reflexivity|].
  unfold served in Hs. destruct (raises_for_status status_code);
    [reflexivity | discriminate].
Qed.

Lemma fetch_stop answers (link : option string) (params : option query) acc
    (sent : list request) :
  url_truthy link = false ->
  fetch_loop answers link params acc sent = Some (Return acc, sent).
Proof.
  intros H. destruct link as [u|]; destruct answers; cbn in *;
    try rewrite H; reflexivity.
Qed.

Lemma fetch_complete answers :
  forall (u : string) (params : option query) acc (sent : list request),
    truthy u = true -> complete answers = true ->
    fetch_loop answers (Some u) params acc sent
    = Some (Return (acc ++ all_values answers),
            sent ++ (u, params) :: omap link_request answers).
Proof.
  induction answers as [|a answers IH]; intros u params acc sent Hu Hc;
    [discriminate|].
  cbn [complete] in Hc. destruct (served a) as [data|] eqn:Hs; [|discriminate].
  rewrite (fetch_page a data answers u params acc sent Hu Hs).
  unfold all_values. cbn [omap list_omap]. rewrite Hs. cbn [map concat].
  destruct (continues a) eqn:Hcont.
  - destruct (served_continues a Hcont) as (d & u' & Hd & Hn & Hu' & Hl).
    rewrite Hs in Hd. injection Hd as <-. rewrite Hn, Hl.
    rewrite (IH u' None _ _ Hu' Hc). unfold all_values.
    rewrite <- !app_assoc. reflexivity.
  - destruct answers; [|discriminate].
    assert (Hstop : url_truthy (nextLink data) = false /\ link_request a = None).
    { unfold continues, link_request in *. rewrite Hs in *.
      destruct (nextLink data) as [u'|]; [|split; reflexivity].
      cbn. destruct (truthy u'); [discriminate | split; reflexivity]. }
    destruct Hstop as [Hstop Hl]. rewrite Hl.
    rewrite (fetch_stop [] _ None _ _ Hstop). cbn. rewrite !app_nil_r. reflexivity.
Qed.

Lemma fetch_interrupted (good : list (answer message)) :
  forall (bad : answer message) (rest : list (answer message))
         (u : string) (params : option query) acc (sent : list request),
    truthy u = true ->
    Forall (fun a => continues a = true) good -> served bad = None ->
    fetch_loop (good ++ bad :: rest) (Some u) params acc sent
    = Some (Return (acc ++ all_values good),
            sent ++ (u, params) :: omap link_request good).
Proof.
  induction good as [|a good IH]; intros bad rest u params acc sent Hu Hgood Hbad.
  - cbn [app]. rewrite (fetch_failure bad rest u params acc sent Hu Hbad).
    unfold all_values. cbn. rewrite app_nil_r. reflexivity.
  - inversion Hgood as [|? ? Ha Hrest]; subst.
    destruct (served_continues a Ha) as (d & u' & Hd & Hn & Hu' & Hl).
    cbn [app]. rewrite (fetch_page a d _ u params acc sent Hu Hd), Hn.
    rewrite (IH bad rest u' None _ _ Hu' Hrest Hbad).
    unfold all_values. cbn [omap list_omap]. rewrite Hd, Hl. cbn [map concat].
    rewrite <- !app_assoc. reflexivity.
Qed.

End Loop.

End TeamsFacts.

(** C3.  On every complete run (each answer is a page with an optional
    [value] array, every page but the last carries a continuation link and
    the last carries none) [get_channel_messages] terminates and returns the
    concatenation, in fetch order, of the [value] arrays of the pages; the
    first request goes to the channel URL with the query parameters, and
    each later request goes to the link given by the previous page, with no
    query parameters. *)
Theorem paginator_concatenates_pages {message : Type} (unquote : string -> string)
    (answers : list (Teams.answer message)) (team_id channel_id : string) (top : Z) :
  TeamsSpec.complete answers = true ->
  Teams.get_channel_messages unquote answers team_id channel_id top
  = Some (Return (TeamsSpec.all_values answers),
          (TeamsSpec.channel_messages_url unquote team_id channel_id,
           Some (TeamsSpec.first_query top))
            :: omap TeamsSpec.link_request answers)
  /\ Forall (fun r : Teams.request => snd r = None) (omap TeamsSpec.link_request answers).
Proof.
  intros Hc. split.
  - unfold Teams.get_channel_messages.
    apply (TeamsFacts.fetch_complete answers
             (TeamsSpec.channel_messages_url unquote team_id channel_id)
             (Some (TeamsSpec.first_query top)) [] [] eq_refl Hc).
  - clear Hc. induction answers as [|a answers IH]; [constructor|].
    cbn [omap list_omap]. destruct (TeamsSpec.link_request a) as [r|] eqn:E; [|exact IH].
    constructor; [|exact IH].
    unfold TeamsSpec.link_request in E.
    destruct (TeamsSpec.served a) as [data|]; [|discriminate].
    destruct (Teams.nextLink data) as [u|]; [|discriminate].
    destruct (PyStr.truthy u); [|discriminate]. injection E as <-. reflexivity.
Qed.

Lemma paginator_concatenates_pages_witness :
  Teams.get_channel_messages (fun s => s) [TeamsSpec.page1; TeamsSpec.page2] "t1" "c1" 50
  = Some (Return ["m1"; "m2"; "m3"],
          [(TeamsSpec.channel_messages_url (fun s => s) "t1" "c1",
            Some (TeamsSpec.first_query 50));
           ("https://next/2", None)]).
Proof.
  apply (proj1 (paginator_concatenates_pages
                  (fun s => s) [TeamsSpec.page1; TeamsSpec.page2] "t1" "c1" 50 eq_refl)).
Defined.

(** C2, as stated, fails.  When the second page answers with status 500, or
    the second request fails on the network, both paginators return the
    messages of the first page; nothing is raised. *)
Lemma paginator_returns_partial_result :
  option_map fst
    (Teams.get_channel_messages (fun s => s)
       [TeamsSpec.page1; TeamsSpec.error500] "t1" "c1" 50)
  = Some (Return ["m1"])
  /\ option_map fst
       (Teams.get_user_chat_messages [TeamsSpec.page1; Teams.NetworkFailure] "me")
     = Some (Return ["m1"]).
Proof. split; reflexivity. Qed.

(** C2, amended.  In both paginators, a response with a 4xx or 5xx status,
    or a network failure, on any page ends the loop: the error is caught,
    nothing is raised, no further request is sent, and the messages
    accumulated from the earlier pages are returned. *)
Theorem paginator_stops_at_failure {message : Type} (unquote : string -> string)
    (good : list (Teams.answer message)) (bad : Teams.answer message)
    (rest : list (Teams.answer message)) (team_id channel_id user_id : string) (top : Z) :
  Forall (fun a => TeamsSpec.continues a = true) good ->
  TeamsSpec.served bad = None ->
  Teams.get_channel_messages unquote (good ++ bad :: rest) team_id channel_id top
  = Some (Return (TeamsSpec.all_values good),
          (TeamsSpec.channel_messages_url unquote team_id channel_id,
           Some (TeamsSpec.first_query top))
            :: omap TeamsSpec.link_request good)
  /\ Teams.get_user_chat_messages (good ++ bad :: rest) user_id
     = Some (Return (TeamsSpec.all_values good),
             (TeamsSpec.chat_messages_url user_id, None)
               :: omap TeamsSpec.link_request good).
Proof.
  intros Hgood Hbad. split.
  - unfold Teams.get_channel_messages.
    apply (TeamsFacts.fetch_interrupted good bad rest
             (TeamsSpec.channel_messages_url unquote team_id channel_id)
             (Some (TeamsSpec.first_query top)) [] [] eq_refl Hgood Hbad).
  - unfold Teams.get_user_chat_messages.
    apply (TeamsFacts.fetch_interrupted good bad rest
             (TeamsSpec.chat_messages_url user_id) None [] [] eq_refl Hgood Hbad).
Qed.

Lemma paginator_stops_at_failure_witness :
  Teams.get_user_chat_messages
    ([TeamsSpec.page1] ++ TeamsSpec.error500 :: [TeamsSpec.page2]) "me"
  = Some (Return ["m1"],
          [(TeamsSpec.chat_messages_url "me", None); ("https://next/2", None)]).
Proof.
  apply (proj2 (paginator_stops_at_failure (fun s => s)
                  [TeamsSpec.page1] TeamsSpec.error500 [TeamsSpec.page2]
                  "t1" "c1" "me" 50
                  ltac:(repeat constructor) eq_refl)).
Defined.



(** ** More about the segmenter *)

Module SegmenterMore.
Import PyStr Segmenter SegmenterSpec.

Lemma parse_script_gather (script : string) :
  parse_script script = snd (gather (split_lines script)).
Proof.
  unfold parse_script. rewrite (SegmenterFacts.emit_fold _ _ SegmenterFacts.wf_init).
  reflexivity.
Qed.

Lemma gather_cons (raw : string) (rest : list string) :
  gather (raw :: rest)
  = match classify raw with
    | Blank => gather rest
    | Label speaker text =>
        ([], (speaker, join " " (text :: fst (gather rest))) :: snd (gather rest))
    | Plain text => (text :: fst (gather rest), snd (gather rest))
    end.
Proof.
  cbn [gather]. destruct (gather rest) as [waiting segs].
  destruct (classify raw); reflexivity.
Qed.

Lemma gather_speakers (lines : list string) :
  map fst (snd (gather lines)) = omap speaker_of_line lines.
Proof.
  induction lines as [|raw rest IH]; [reflexivity|].
  rewrite gather_cons. cbn [omap list_omap]. unfold speaker_of_line at 1.
  destruct (classify raw); cbn [snd map fst]; rewrite IH; reflexivity.
Qed.

Lemma gather_app (before after : list string) :
  fst (gather after) = [] ->
  gather (before ++ after)
  = (fst (gather before), snd (gather before) ++ snd (gather after)).
Proof.
  intros Hafter. induction before as [|raw rest IH].
  - cbn [app gather fst snd]. rewrite <- Hafter. destruct (gather after); reflexivity.
  - cbn [app]. rewrite !gather_cons, IH.
    destruct (classify raw); cbn [fst snd]; reflexivity.
Qed.

Lemma split_on_step (sep c : ascii) (s : string) :
  split_on sep (String c s)
  = if Ascii.eqb c sep then EmptyString :: split_on sep s
    else match split_on sep s with
         | h :: t => String c h :: t
         | [] => [String c EmptyString]
         end.
Proof. reflexivity. Qed.

Lemma split_lines_then (first second : string) :
  split_lines (then_script first second) = split_lines first ++ split_lines second.
Proof.
  unfold split_lines, then_script.
  induction first as [|c first IH].
  - change (String.append "" (String newline second)) with (String newline second).
    rewrite split_on_step, Ascii.eqb_refl. reflexivity.
  - change (String.append (String c first) (String newline second))
      with (String c (String.append first (String newline second))).
    rewrite !split_on_step, IH.
    destruct (Ascii.eqb c newline); [reflexivity|].
    destruct (PyStrFacts.split_on_cons newline first) as (h & t & ->). reflexivity.
Qed.

Lemma no_labels_no_segments (script : string) :
  Forall (fun raw => is_label_line raw = false) (split_lines script) ->
  parse_script script = [].
Proof.
  intros Hnone.
  assert (Hsp : map fst (parse_script script) = []).
  { rewrite parse_script_gather, gather_speakers.
    apply SynthFacts.omap_none. intros raw Hin.
    pose proof (proj1 (List.Forall_forall _ _) Hnone raw Hin) as Hraw.
    unfold is_label_line in Hraw.
    destruct (speaker_of_line raw); [discriminate | reflexivity]. }
  destruct (parse_script script); [reflexivity | discriminate].
Qed.

End SegmenterMore.

(** X1.  The speakers of the segments returned by [parse_script] are, in
    order, the speakers of the lines that carry a label; in particular there
    are as many segments as label lines, and a transcript without any label
    line, the empty one included, gives no segment. *)
Theorem segments_follow_labels (script : string) :
  map fst (Segmenter.parse_script script)
  = omap SegmenterSpec.speaker_of_line (PyStr.split_lines script)
  /\ (Forall (fun raw => SegmenterSpec.is_label_line raw = false)
        (PyStr.split_lines script) ->
      Segmenter.parse_script script = []).
Proof.
  assert (Hsp : map fst (Segmenter.parse_script script)
                = omap SegmenterSpec.speaker_of_line (PyStr.split_lines script)).
  { rewrite SegmenterMore.parse_script_gather. apply SegmenterMore.gather_speakers. }
  split; [exact Hsp|].
  intros Hnone.
  assert (Hempty : omap SegmenterSpec.speaker_of_line (PyStr.split_lines script) = []).
  { apply SynthFacts.omap_none. intros raw Hin.
    pose proof (proj1 (List.Forall_forall _ _) Hnone raw Hin) as Hraw.
    unfold SegmenterSpec.is_label_line in Hraw.
    destruct (SegmenterSpec.speaker_of_line raw); [discriminate | reflexivity]. }
  rewrite Hempty in Hsp. destruct (Segmenter.parse_script script); [reflexivity | discriminate].
Qed.

Lemma segments_follow_labels_witness :
  Segmenter.parse_script "just some text, nobody speaking" = [].
Proof.
  apply (proj2 (segments_follow_labels "just some text, nobody speaking")).
  vm_compute. repeat constructor.
Defined.

(** X2.  Every segment returned by [parse_script] has speaker "Person A" or
    "Person B" and a text that holds no line break. *)
Theorem segments_are_well_formed (script speaker text : string) :
  In (speaker, text) (Segmenter.parse_script script) ->
  (speaker = "Person A" \/ speaker = "Person B")
  /\ PyStr.contains PyStr.newline text = false.
Proof.
  intros Hin.
  exact (proj1 (List.Forall_forall _ _)
           (SegmenterFacts.parse_script_well_formed script) _ Hin).
Qed.

Lemma segments_are_well_formed_witness :
  PyStr.contains PyStr.newline "hey yaar" = false.
Proof.
  apply (proj2 (segments_are_well_formed
                  (String.append "Person A: hi"
                     (String PyStr.newline
                        (String.append "Person B: hey" (String PyStr.newline "yaar"))))
                  "Person B" "hey yaar"
                  ltac:(vm_compute; right; left; reflexivity))).
Defined.

(** X3.  Segmenting two transcripts written one after the other gives the
    segments of the first followed by the segments of the second, provided
    the second begins with a label line. *)
Theorem segmenting_is_compositional (first second line : string) (rest : list string) :
  PyStr.split_lines second = line :: rest ->
  SegmenterSpec.is_label_line line = true ->
  Segmenter.parse_script (SegmenterSpec.then_script first second)
  = Segmenter.parse_script first ++ Segmenter.parse_script second.
Proof.
  intros Hsplit Hlabel.
  rewrite !SegmenterMore.parse_script_gather, SegmenterMore.split_lines_then.
  rewrite SegmenterMore.gather_app; [reflexivity|].
  rewrite Hsplit, SegmenterMore.gather_cons.
  unfold SegmenterSpec.is_label_line, SegmenterSpec.speaker_of_line in Hlabel.
  destruct (SegmenterSpec.classify line); [discriminate | reflexivity | discriminate].
Qed.

Lemma segmenting_is_compositional_witness :
  Segmenter.parse_script
    (SegmenterSpec.then_script "Person A: hi" (String.append "Person B: hey"
                                                 (String PyStr.newline "yaar")))
  = Segmenter.parse_script "Person A: hi"
      ++ Segmenter.parse_script (String.append "Person B: hey"
                                   (String PyStr.newline "yaar")).
Proof.
  apply (segmenting_is_compositional "Person A: hi"
           (String.append "Person B: hey" (String PyStr.newline "yaar"))
           "Person B: hey" ["yaar"]); vm_compute; reflexivity.
Defined.

(** ** More about the synthesizer *)

Module SynthMore.
Import PyStr Synth SynthSpec.

(** For one segment: with nothing to say, no clip, no failure and no
    request; otherwise exactly one of clip and failure, and at most two
    requests. *)
Lemma item_accounting (sv : services) (o : options) (item : nat * (string * string)) :
  length (option_list (clip_of sv o item)) + length (option_list (failure_of sv o item))
  = length (option_list (attempt_of item))
  /\ length (option_list (attempt_of item)) <= 1
  /\ Forall (fun clip : bytes => clip <> []) (option_list (clip_of sv o item))
  /\ Forall (fun p => p = fst item + 1) (option_list (failure_of sv o item))
  /\ length (calls_of sv o item) <= 2 * length (option_list (attempt_of item)).
Proof.
  destruct item as [i [speaker dialogue]].
  unfold clip_of, failure_of, calls_of, attempt_of, verdict_of, speaks. cbn [fst snd].
  destruct (is_empty (clean_dialogue dialogue)).
  { cbn. repeat split; auto. }
  pose proof (SynthFacts.requests_at_most_two sv o
                (i, clean_dialogue dialogue, voice_for o speaker)) as Hreq.
  destruct (fst (call_tts sv o i (clean_dialogue dialogue) speaker)) as [[[|b clip]|]|e];
    cbn [negb option_list length]; repeat split; auto; try lia;
    repeat constructor; discriminate.
Qed.

Lemma items_accounting (sv : services) (o : options)
    (items : list (nat * (string * string))) (n : nat) :
  Forall (fun item => fst item < n) items ->
  length (omap (clip_of sv o) items) + length (omap (failure_of sv o) items)
  = length (omap attempt_of items)
  /\ length (omap attempt_of items) <= length items
  /\ Forall (fun clip : bytes => clip <> []) (omap (clip_of sv o) items)
  /\ Forall (fun p => 1 <= p <= n) (omap (failure_of sv o) items)
  /\ length (flat_map (calls_of sv o) items) <= 2 * length (omap attempt_of items).
Proof.
  induction 1 as [|item items Hitem Hitems (IH1 & IH2 & IH3 & IH4 & IH5)].
  - cbn. repeat split; auto.
  - rewrite !SynthFacts.omap_cons_list. cbn [flat_map]. rewrite !length_app.
    destruct (item_accounting sv o item) as (H1 & H2 & H3 & H4 & H5).
    cbn [length]. split; [lia|]. split; [lia|]. split; [|split].
    + apply Forall_app. split; assumption.
    + apply Forall_app. split; [|assumption].
      eapply Forall_impl; [exact H4|]. cbn. intros p ->. lia.
    + lia.
Qed.

Lemma enumerate_bound {A : Type} (l : list A) :
  Forall (fun item => fst item < length l) (enumerate l).
Proof.
  apply List.Forall_forall. intros [i x] Hin. cbn [fst].
  unfold enumerate in Hin. apply in_combine_l in Hin.
  apply in_seq in Hin. lia.
Qed.

Lemma enumerate_length {A : Type} (l : list A) : length (enumerate l) = length l.
Proof. unfold enumerate. rewrite length_combine, length_seq. lia. Qed.

Lemma silent_items (sv : services) (o : options)
    (items : list (nat * (string * string))) :
  Forall (fun item => speaks (snd item) = false) items ->
  flat_map (calls_of sv o) items = [] /\ omap attempt_of items = [].
Proof.
  induction 1 as [|[i [speaker dialogue]] items Hs Hrest [IH1 IH2]]; [split; reflexivity|].
  cbn [flat_map]. rewrite SynthFacts.omap_cons_list, IH1, IH2.
  unfold attempt_of. rewrite Hs. unfold speaks in Hs. cbn [snd] in Hs.
  unfold calls_of. destruct (is_empty (clean_dialogue dialogue)); [|discriminate].
  split; reflexivity.
Qed.

Lemma enumerate_snd {A : Type} (P : A -> Prop) (l : list A) :
  Forall P l -> Forall (fun item => P (snd item)) (enumerate l).
Proof.
  intros H. apply List.Forall_forall. intros [i x] Hin. cbn [snd].
  unfold enumerate in Hin. apply in_combine_r in Hin.
  exact (proj1 (List.Forall_forall _ _) H x Hin).
Qed.

End SynthMore.

(** The facts about a whole run, shared by the statements below. *)

Module SynthRun.

Lemma accounting
    (sv : Synth.services) (o : Synth.options) (segs : list (string * string)) :
  length (Synth.audio_segments (Synth.run_loop sv o segs))
  + length (Synth.failed_segments (Synth.run_loop sv o segs))
  = length (SynthSpec.attempted_positions segs)
  /\ length (SynthSpec.attempted_positions segs) <= length segs
  /\ Forall (fun clip : bytes => clip <> [])
       (Synth.audio_segments (Synth.run_loop sv o segs))
  /\ Forall (fun p => 1 <= p <= length segs)
       (Synth.failed_segments (Synth.run_loop sv o segs))
  /\ length (Synth.calls (Synth.run_loop sv o segs))
     <= 2 * length (SynthSpec.attempted_positions segs).
Proof.
  rewrite SynthFacts.run_loop_summary.
  cbn [Synth.audio_segments Synth.failed_segments Synth.calls].
  destruct (SynthMore.items_accounting sv o (Synth.enumerate segs) (length segs)
              (SynthMore.enumerate_bound segs)) as (H1 & H2 & H3 & H4 & H5).
  rewrite SynthMore.enumerate_length in H2.
  split; [exact H1|]. split; [exact H2|]. split; [exact H3|]. split; [exact H4 | exact H5].
Qed.

Lemma returns_real_audio
    (sv : Synth.services) (o : Synth.options) (segs : list (string * string))
    (clips : list bytes) :
  Synth.generate_audio_for_segments sv o segs = Return clips ->
  clips <> []
  /\ Forall (fun clip : bytes => clip <> []) clips
  /\ length clips <= length segs.
Proof.
  intros H.
  destruct (accounting sv o segs) as (Hsum & Hcalls & Hclips & _).
  unfold Synth.generate_audio_for_segments in H.
  destruct (Synth.audio_segments (Synth.run_loop sv o segs)) as [|c cs] eqn:E;
    [discriminate|].
  cbn in H. injection H as <-.
  split; [discriminate|]. split; [exact Hclips|]. lia.
Qed.

Lemma nothing_to_say
    (sv : Synth.services) (o : Synth.options) (segs : list (string * string)) :
  Forall (fun seg => SynthSpec.speaks seg = false) segs ->
  Synth.calls (Synth.run_loop sv o segs) = []
  /\ Synth.generate_audio_for_segments sv o segs = Raise (AllSegmentsFailed []).
Proof.
  intros Hsilent.
  destruct (SynthMore.silent_items sv o (Synth.enumerate segs)
              (SynthMore.enumerate_snd (fun seg => SynthSpec.speaks seg = false)
                 segs Hsilent)) as [Hcalls Hnone].
  split.
  { rewrite SynthFacts.run_loop_summary. exact Hcalls. }
  destruct (accounting sv o segs) as (Hsum & _).
  change (SynthSpec.attempted_positions segs)
    with (omap SynthSpec.attempt_of (Synth.enumerate segs)) in Hsum.
  rewrite Hnone in Hsum. cbn [length] in Hsum.
  unfold Synth.generate_audio_for_segments.
  destruct (Synth.audio_segments (Synth.run_loop sv o segs)); [|cbn in Hsum; lia].
  destruct (Synth.failed_segments (Synth.run_loop sv o segs)); [|cbn in Hsum; lia].
  reflexivity.
Qed.

End SynthRun.

(** X4.  At the end of the loop of [generate_audio_for_segments] every
    segment with something to say is accounted for exactly once, as a kept
    clip or as a failed position; there are at most as many of them as
    segments; no clip kept is empty; every failed position lies between 1
    and the number of segments; and at most two requests were sent per
    segment with something to say. *)
Theorem synthesizer_accounting
    (sv : Synth.services) (o : Synth.options) (segs : list (string * string)) :
  length (Synth.audio_segments (Synth.run_loop sv o segs))
  + length (Synth.failed_segments (Synth.run_loop sv o segs))
  = length (SynthSpec.attempted_positions segs)
  /\ length (SynthSpec.attempted_positions segs) <= length segs
  /\ Forall (fun clip : bytes => clip <> [])
       (Synth.audio_segments (Synth.run_loop sv o segs))
  /\ Forall (fun p => 1 <= p <= length segs)
       (Synth.failed_segments (Synth.run_loop sv o segs))
  /\ length (Synth.calls (Synth.run_loop sv o segs))
     <= 2 * length (SynthSpec.attempted_positions segs).
Proof. exact (SynthRun.accounting sv o segs). Qed.

(** X5.  When [generate_audio_for_segments] returns, the list it returns is
    never empty, holds no empty clip, and has at most one clip per
    segment. *)
Theorem synthesizer_returns_real_audio
    (sv : Synth.services) (o : Synth.options) (segs : list (string * string))
    (clips : list bytes) :
  Synth.generate_audio_for_segments sv o segs = Return clips ->
  clips <> []
  /\ Forall (fun clip : bytes => clip <> []) clips
  /\ length clips <= length segs.
Proof. exact (SynthRun.returns_real_audio sv o segs clips). Qed.

Lemma synthesizer_returns_real_audio_witness :
  [Samples.tone 0; Samples.tone 2; Samples.tone 4] <> []
  /\ Forall (fun clip : bytes => clip <> [])
       [Samples.tone 0; Samples.tone 2; Samples.tone 4]
  /\ length [Samples.tone 0; Samples.tone 2; Samples.tone 4] <= length Samples.five.
Proof.
  apply (synthesizer_returns_real_audio Samples.flaky Synth.default_options Samples.five).
  vm_compute. reflexivity.
Defined.

(** X6.  When no segment has anything to say once the laugh markers are
    removed (in particular when there is no segment at all),
    [generate_audio_for_segments] makes no remote call and raises the
    all-failed exception with an empty list of failed positions. *)
Theorem synthesizer_with_nothing_to_say
    (sv : Synth.services) (o : Synth.options) (segs : list (string * string)) :
  Forall (fun seg => SynthSpec.speaks seg = false) segs ->
  Synth.calls (Synth.run_loop sv o segs) = []
  /\ Synth.generate_audio_for_segments sv o segs = Raise (AllSegmentsFailed []).
Proof. exact (SynthRun.nothing_to_say sv o segs). Qed.

Lemma synthesizer_with_nothing_to_say_witness :
  Synth.generate_audio_for_segments Samples.flaky Synth.default_options
    [("Person A", "[laughs]"); ("Person B", "  [laugh] ")]
  = Raise (AllSegmentsFailed []).
Proof.
  apply (proj2 (synthesizer_with_nothing_to_say Samples.flaky Synth.default_options
                  [("Person A", "[laughs]"); ("Person B", "  [laugh] ")]
                  ltac:(vm_compute; repeat constructor))).
Defined.

(** ** More about the mixer *)

Module MixerMoreFacts.
Import Mixer MixerSpec MixerMore.




End MixerMoreFacts.

(** X7.  [combine_and_export_audio] returns [None] exactly on an empty clip
    list; a file is written exactly when it returns the requested file
    name; and it raises only when the output file cannot be opened. *)
Theorem exporter_result_and_file (h : Mixer.host) (clips : list bytes) (out : string) :
  (Mixer.result (Mixer.combine_and_export_audio h clips out) = Return None
   <-> clips = [])
  /\ (Mixer.written (Mixer.combine_and_export_audio h clips out) <> None
      <-> Mixer.result (Mixer.combine_and_export_audio h clips out) = Return (Some out))
  /\ (forall e, Mixer.result (Mixer.combine_and_export_audio h clips out) = Raise e ->
                Mixer.open_ok h = false /\ Mixer.normalized_track h clips = None).
Proof.
  destruct clips as [|clip clips].
  - cbn. repeat split; intros; try congruence; try discriminate.
  - unfold Mixer.combine_and_export_audio, Mixer.fallback.
    destruct (Mixer.normalized_track h (clip :: clips)) as [track|].
    + cbn. repeat split; intros; try congruence; try discriminate.
    + destruct (Mixer.open_ok h); cbn;
        repeat split; intros; try congruence; try discriminate.
Qed.

Lemma exporter_result_and_file_witness :
  Mixer.open_ok Samples.bare = true
  /\ Mixer.written (Mixer.combine_and_export_audio Samples.bare [Samples.tone 0] "out.mp3")
     <> None.
Proof.
  split; [reflexivity|].
  apply (proj2 (proj1 (proj2 (exporter_result_and_file
                                Samples.bare [Samples.tone 0] "out.mp3")))).
  reflexivity.
Defined.



(** ** More about the Teams extractor *)

Module TeamsMoreFacts.
Import PyStr Teams TeamsSpec TeamsMore.

Section Direct.
Context {message : Type}.
Implicit Types (answers : list (answer message)) (acc : list message).

Lemma direct_page (a : answer message) (data : page message) answers
    (u : string) acc (sent : list request) :
  truthy u = true -> served a = Some data ->
  direct_loop (a :: answers) (Some u) acc sent
  = direct_loop answers (nextLink data) (acc ++ get_value data) (sent ++ [(u, None)]).
Proof.
  intros Hu Hs. cbn [direct_loop]. rewrite Hu.
  destruct a as [|status_code d]; [discriminate|].
  unfold served in Hs. destruct (raises_for_status status_code); [discriminate|].
  injection Hs as ->. reflexivity.
Qed.

Lemma direct_failure (a : answer message) answers (u : string) acc (sent : list request) :
  truthy u = true -> served a = None ->
  direct_loop (a :: answers) (Some u) acc sent
  = Some (Raise request_exception, sent ++ [(u, None)]).
Proof.
  intros Hu Hs. cbn [direct_loop]. rewrite Hu.
  destruct a as [|status_code d]; [reflexivity|].
  unfold served in Hs. destruct (raises_for_status status_code);
    [reflexivity | discriminate].
Qed.

Lemma direct_stop answers (link : option string) acc (sent : list request) :
  url_truthy link = false ->
  direct_loop answers link acc sent = Some (Return acc, sent).
Proof.
  intros H. destruct link as [u|]; destruct answers; cbn in *;
    try rewrite H; reflexivity.
Qed.

(** On a complete run the two loops do the same. *)
Lemma direct_complete answers :
  forall (u : string) acc (sent : list request),
    truthy u = true -> complete answers = true ->
    direct_loop answers (Some u) acc sent = fetch_loop answers (Some u) None acc sent.
Proof.
  induction answers as [|a answers IH]; intros u acc sent Hu Hc; [discriminate|].
  cbn [complete] in Hc. destruct (served a) as [data|] eqn:Hs; [|discriminate].
  rewrite (direct_page a data answers u acc sent Hu Hs).
  rewrite (TeamsFacts.fetch_page a data answers u None acc sent Hu Hs).
  destruct (continues a) eqn:Hcont.
  - destruct (TeamsFacts.served_continues a Hcont) as (d & u' & Hd & Hn & Hu' & _).
    rewrite Hs in Hd. injection Hd as <-. rewrite Hn. apply IH; assumption.
  - assert (Hstop : url_truthy (nextLink data) = false).
    { unfold continues, link_request in Hcont. rewrite Hs in Hcont.
      destruct (nextLink data) as [u'|]; [|reflexivity].
      cbn. destruct (truthy u'); [discriminate | reflexivity]. }
    rewrite (direct_stop _ _ _ _ Hstop), (TeamsFacts.fetch_stop _ _ _ _ _ Hstop).
    reflexivity.
Qed.

Lemma direct_interrupted (good : list (answer message)) :
  forall (bad : answer message) (rest : list (answer message))
         (u : string) acc (sent : list request),
    truthy u = true ->
    Forall (fun a => continues a = true) good -> served bad = None ->
    direct_loop (good ++ bad :: rest) (Some u) acc sent
    = Some (Raise request_exception, sent ++ (u, None) :: omap link_request good).
Proof.
  induction good as [|a good IH]; intros bad rest u acc sent Hu Hgood Hbad.
  - cbn [app]. rewrite (direct_failure bad rest u acc sent Hu Hbad). reflexivity.
  - inversion Hgood as [|? ? Ha Hrest]; subst.
    destruct (TeamsFacts.served_continues a Ha) as (d & u' & Hd & Hn & Hu' & Hl).
    cbn [app]. rewrite (direct_page a d _ u acc sent Hu Hd), Hn.
    rewrite (IH bad rest u' _ _ Hu' Hrest Hbad).
    cbn [omap list_omap]. rewrite Hl. rewrite <- !app_assoc. reflexivity.
Qed.

End Direct.

Section Fields.
Variable urlparse : string -> outcome ParseResult.
Variable parse_qs : string -> gmap string (list string).
Variable unquote : string -> string.

(** What [parse_channel_url] puts in each field. *)
Lemma parsed_fields (url : string) (parsed : ParseResult) :
  (forall qs key, parse_qs qs !! key <> Some []) ->
  urlparse url = Return parsed ->
  exists url_info,
    parse_channel_url urlparse parse_qs unquote url = Return url_info
    /\ field url_info "groupId" = first_of (parse_qs (query_string parsed)) "groupId"
    /\ field url_info "channelId"
       = channel_of unquote (split_on "/"%char (path parsed)).
Proof.
  intros Hqs Hparse. unfold parse_channel_url. rewrite Hparse.
  set (params := parse_qs (query_string parsed)).
  assert (Hfirst : forall key, first_value params key = Return (first_of params key)).
  { intros key. unfold first_value, first_of.
    destruct (params !! key) as [[|v vs]|] eqn:E; try reflexivity.
    exfalso. exact (Hqs _ _ E). }
  rewrite !Hfirst. eexists. split; [reflexivity|].
  unfold field. split; reflexivity.
Qed.

End Fields.

End TeamsMoreFacts.

(** X9.  On every complete run, [get_user_chat_messages_direct] and the
    extractor's [get_user_chat_messages] send the same requests and return
    the same messages. *)
Theorem direct_agrees_on_complete_runs {message : Type}
    (answers : list (Teams.answer message)) (user_id : string) :
  TeamsSpec.complete answers = true ->
  TeamsMore.get_user_chat_messages_direct answers user_id
  = Teams.get_user_chat_messages answers user_id.
Proof.
  intros Hc.
  apply (TeamsMoreFacts.direct_complete answers
           (TeamsSpec.chat_messages_url user_id) [] [] eq_refl Hc).
Qed.

Lemma direct_agrees_on_complete_runs_witness :
  TeamsMore.get_user_chat_messages_direct [TeamsSpec.page1; TeamsSpec.page2] "me"
  = Teams.get_user_chat_messages [TeamsSpec.page1; TeamsSpec.page2] "me".
Proof.
  apply (direct_agrees_on_complete_runs [TeamsSpec.page1; TeamsSpec.page2] "me" eq_refl).
Defined.

(** X10.  When a page answers with a 4xx or 5xx status or the request fails
    on the network, [get_user_chat_messages_direct] raises the request
    exception and returns nothing of what the earlier pages brought, and it
    sends no further request. *)
Theorem direct_raises_on_failure {message : Type}
    (good : list (Teams.answer message)) (bad : Teams.answer message)
    (rest : list (Teams.answer message)) (user_id : string) :
  Forall (fun a => TeamsSpec.continues a = true) good ->
  TeamsSpec.served bad = None ->
  TeamsMore.get_user_chat_messages_direct (good ++ bad :: rest) user_id
  = Some (Raise TeamsMore.request_exception,
          (TeamsSpec.chat_messages_url user_id, None)
            :: omap TeamsSpec.link_request good).
Proof.
  intros Hgood Hbad.
  apply (TeamsMoreFacts.direct_interrupted good bad rest
           (TeamsSpec.chat_messages_url user_id) [] [] eq_refl Hgood Hbad).
Qed.

Lemma direct_raises_on_failure_witness :
  TeamsMore.get_user_chat_messages_direct
    ([TeamsSpec.page1] ++ TeamsSpec.error500 :: [TeamsSpec.page2]) "me"
  = Some (Raise TeamsMore.request_exception,
          [(TeamsSpec.chat_messages_url "me", None); ("https://next/2", None)]).
Proof.
  apply (direct_raises_on_failure [TeamsSpec.page1] TeamsSpec.error500
           [TeamsSpec.page2] "me" ltac:(repeat constructor) eq_refl).
Defined.

(** X11.  A deep link whose query string has no groupId makes
    [extract_messages_from_channel_url] raise the ValueError about the
    group before any request is sent. *)
Theorem extract_needs_group {message : Type}
    (urlparse : string -> outcome Teams.ParseResult)
    (parse_qs : string -> gmap string (list string))
    (unquote : string -> string) (lookup : TeamsMore.group_answer)
    (answers : list (Teams.answer message)) (url : string)
    (parsed : Teams.ParseResult) :
  (forall qs key, parse_qs qs !! key <> Some []) ->
  urlparse url = Return parsed ->
  parse_qs (Teams.query_string parsed) !! "groupId" = None ->
  TeamsMore.extract_messages_from_channel_url urlparse parse_qs unquote lookup answers url
  = Some (Raise (ValueError "Could not extract groupId from URL"), []).
Proof.
  intros Hqs Hparse Hnone.
  destruct (TeamsMoreFacts.parsed_fields urlparse parse_qs unquote url parsed Hqs Hparse)
    as (url_info & Hinfo & Hgroup & _).
  unfold TeamsMore.extract_messages_from_channel_url. rewrite Hinfo, Hgroup.
  unfold TeamsSpec.first_of. rewrite Hnone. reflexivity.
Qed.

Lemma extract_needs_group_witness :
  TeamsMore.extract_messages_from_channel_url
    TeamsMore.channel_link (fun _ => ∅) TeamsMore.sample_unquote
    (TeamsMore.team_group "t1") [TeamsSpec.page1; TeamsSpec.page2]
    "https://teams.microsoft.com/l/channel/19%3Aabc/General"
  = Some (Raise (ValueError "Could not extract groupId from URL"), []).
Proof.
  apply (extract_needs_group TeamsMore.channel_link (fun _ => ∅) TeamsMore.sample_unquote
           (TeamsMore.team_group "t1") [TeamsSpec.page1; TeamsSpec.page2]
           "https://teams.microsoft.com/l/channel/19%3Aabc/General"
           {| Teams.path := "/l/channel/19%3Aabc/General";
              Teams.query_string := "groupId=g1" |}).
  - intros qs key. rewrite lookup_empty. discriminate.
  - reflexivity.
  - apply lookup_empty.
Defined.



(** X13.  With a group that is a team and a channel part in the path, on a
    complete run of pages, [extract_messages_from_channel_url] returns the
    messages of all pages in fetch order.  It sends the group lookup first
    and then the channel requests; the channel id in the first of them has
    been percent-decoded twice, once by the URL parser and once more by the
    paginator. *)
Theorem extract_fetches_channel {message : Type}
    (urlparse : string -> outcome Teams.ParseResult)
    (parse_qs : string -> gmap string (list string))
    (unquote : string -> string) (lookup : TeamsMore.group_answer)
    (answers : list (Teams.answer message)) (url : string)
    (parsed : Teams.ParseResult) (group_id team_id part : string) (idx : nat) :
  (forall qs key, parse_qs qs !! key <> Some []) ->
  urlparse url = Return parsed ->
  TeamsSpec.first_of (parse_qs (Teams.query_string parsed)) "groupId" = Some group_id ->
  PyStr.truthy group_id = true ->
  fst (TeamsMore.get_team_id_from_group lookup group_id) = Return (Some team_id) ->
  PyStr.truthy team_id = true ->
  Teams.index "channel" (PyStr.split_on "/"%char (Teams.path parsed)) = Some idx ->
  PyStr.split_on "/"%char (Teams.path parsed) !! (idx + 1) = Some part ->
  PyStr.truthy (unquote part) = true ->
  TeamsSpec.complete answers = true ->
  TeamsMore.extract_messages_from_channel_url urlparse parse_qs unquote lookup answers url
  = Some (Return (TeamsSpec.all_values answers),
          (String.append Teams.base_url (String.append "/groups/" group_id), None)
            :: (String.append Teams.base_url
                  (String.append "/teams/"
                     (String.append team_id
                        (String.append "/channels/"
                           (String.append (unquote (unquote part)) "/messages")))),
                Some (TeamsSpec.first_query 50))
            :: omap TeamsSpec.link_request answers).
Proof.
  intros Hqs Hparse Hgroup Hg Hteam Ht Hidx Hpart Hc Hcomplete.
  destruct (TeamsMoreFacts.parsed_fields urlparse parse_qs unquote url parsed Hqs Hparse)
    as (url_info & Hinfo & Hfg & Hfc).
  assert (Hchannel : Teams.channel_of unquote (PyStr.split_on "/"%char (Teams.path parsed))
                     = Some (unquote part)).
  { unfold Teams.channel_of. rewrite Hidx, Hpart.
    assert (Hlt : idx + 1 < length (PyStr.split_on "/"%char (Teams.path parsed))).
    { apply lookup_lt_Some in Hpart. exact Hpart. }
    apply Nat.ltb_lt in Hlt. rewrite Hlt. reflexivity. }
  unfold PyStr.truthy in Hg, Ht, Hc.
  apply negb_true_iff in Hg. apply negb_true_iff in Ht. apply negb_true_iff in Hc.
  unfold TeamsMore.extract_messages_from_channel_url.
  rewrite Hinfo, Hfg, Hgroup. cbn [TeamsMore.falsy TeamsMore.or_empty]. rewrite Hg.
  destruct (TeamsMore.get_team_id_from_group lookup group_id) as [team req] eqn:E.
  assert (Hreq : req = (String.append Teams.base_url (String.append "/groups/" group_id),
                        None)).
  { unfold TeamsMore.get_team_id_from_group in E. injection E as _ <-. reflexivity. }
  subst req. cbn [fst] in Hteam. subst team.
  cbn [TeamsMore.falsy TeamsMore.or_empty]. rewrite Ht, Hfc, Hchannel. cbn [TeamsMore.falsy TeamsMore.or_empty].
  rewrite Hc.
  assert (Hpages : Teams.get_channel_messages unquote answers team_id (unquote part) 50
                   = Some (Return (TeamsSpec.all_values answers),
                           (TeamsSpec.channel_messages_url unquote team_id (unquote part),
                            Some (TeamsSpec.first_query 50))
                             :: omap TeamsSpec.link_request answers)).
  { exact (TeamsFacts.fetch_complete answers
             (TeamsSpec.channel_messages_url unquote team_id (unquote part))
             (Some (TeamsSpec.first_query 50)) [] [] eq_refl Hcomplete). }
  rewrite Hpages. reflexivity.
Qed.

Lemma extract_fetches_channel_witness :
  TeamsMore.extract_messages_from_channel_url
    TeamsMore.channel_link TeamsSpec.sample_parse_qs TeamsMore.sample_unquote
    (TeamsMore.team_group "t1") [TeamsSpec.page1; TeamsSpec.page2]
    "https://teams.microsoft.com/l/channel/19%3Aabc/General?groupId=g1"
  = Some (Return ["m1"; "m2"; "m3"],
          [("https://graph.microsoft.com/v1.0/groups/g1", None);
           ("https://graph.microsoft.com/v1.0/teams/t1/channels/19:abc/messages",
            Some (TeamsSpec.first_query 50));
           ("https://next/2", None)]).
Proof.
  apply (extract_fetches_channel
           TeamsMore.channel_link TeamsSpec.sample_parse_qs TeamsMore.sample_unquote
           (TeamsMore.team_group "t1") [TeamsSpec.page1; TeamsSpec.page2]
           "https://teams.microsoft.com/l/channel/19%3Aabc/General?groupId=g1"
           {| Teams.path := "/l/channel/19%3Aabc/General";
              Teams.query_string := "groupId=g1" |}
           "g1" "t1" "19%3Aabc" 2
           ltac:(intros qs key; unfold TeamsSpec.sample_parse_qs;
                 destruct (decide (key = "groupId")) as [->|Hne];
                 [rewrite lookup_singleton_eq; discriminate
                 |rewrite lookup_singleton_ne by congruence; discriminate])
           eq_refl eq_refl eq_refl eq_refl eq_refl eq_refl eq_refl eq_refl eq_refl).
Defined.

(** ** About the pipeline *)

Module PipelineFacts.
Import PyStr Pipeline.

Lemma length_app_str (a b : string) :
  String.length (String.append a b) = String.length a + String.length b.
Proof. induction a as [|c a IH]; [reflexivity|]. simpl. f_equal. exact IH. Qed.

Lemma take_length (n : nat) : forall s, String.length (take n s) = Nat.min n (String.length s).
Proof.
  induction n as [|n IH]; intros [|c s]; cbn; try reflexivity.
  rewrite IH. reflexivity.
Qed.

Lemma take_prefix (n : nat) : forall s, String.prefix (take n s) s = true.
Proof.
  induction n as [|n IH]; intros [|c s]; cbn; try reflexivity.
  destruct (ascii_dec c c) as [_|Hne]; [apply IH | congruence].
Qed.

Lemma take_all (n : nat) : forall s, String.length s <= n -> take n s = s.
Proof.
  induction n as [|n IH]; intros [|c s] H; cbn in *; try reflexivity; try lia.
  rewrite IH by lia. reflexivity.
Qed.

Lemma prefix_app (a b : string) : String.prefix a (String.append a b) = true.
Proof.
  induction a as [|c a IH]; [destruct b; reflexivity|].
  simpl. destruct (ascii_dec c c) as [_|Hne]; [exact IH | congruence].
Qed.

Lemma slice_to_length (k : Z) (s : string) :
  (0 <= k)%Z -> (Z.of_nat (String.length (slice_to k s)) <= k)%Z.
Proof.
  intros Hk. unfold slice_to. destruct (0 <=? k)%Z eqn:E; [|lia].
  rewrite take_length. lia.
Qed.

(** The article handed on is the page text, cut at [max_chars] with three
    dots added when it is longer. *)
Lemma fetched_page (text title : string) (max_chars : Z) :
  (0 <= max_chars)%Z ->
  exists r,
    fetch_wikipedia_article (WikiPage text) title max_chars = Some r
    /\ (Z.of_nat (String.length r) <= max_chars + 3)%Z
    /\ String.prefix (take (Z.to_nat max_chars) text) r = true
    /\ ((Z.of_nat (String.length text) <= max_chars)%Z -> r = text).
Proof.
  intros Hk. unfold fetch_wikipedia_article.
  destruct (max_chars <? Z.of_nat (String.length text))%Z eqn:E.
  - eexists. split; [reflexivity|]. split; [|split].
    + rewrite length_app_str. pose proof (slice_to_length max_chars text Hk). cbn. lia.
    + unfold slice_to. destruct (0 <=? max_chars)%Z eqn:E0; [|lia].
      apply prefix_app.
    + intros Hle. apply Z.ltb_lt in E. lia.
  - exists text. split; [reflexivity|]. split; [|split].
    + apply Z.ltb_ge in E. lia.
    + apply take_prefix.
    + reflexivity.
Qed.

Lemma not_found_truthy (title : string) : falsy (Some (not_found_message title)) = false.
Proof. reflexivity. Qed.

(** A non-empty list of clips never makes the mixer return [None]. *)
Lemma mixer_on_clips (h : Mixer.host) (clip : bytes) (clips : list bytes) (out : string) :
  Mixer.result (Mixer.combine_and_export_audio h (clip :: clips) out) = Return (Some out)
  \/ exists e, Mixer.result (Mixer.combine_and_export_audio h (clip :: clips) out) = Raise e.
Proof.
  unfold Mixer.combine_and_export_audio, Mixer.fallback.
  destruct (Mixer.normalized_track h (clip :: clips)); [left; reflexivity|].
  destruct (Mixer.open_ok h); [left; reflexivity | right; eauto].
Qed.

End PipelineFacts.

(** X14.  For a page that exists and a non-negative [max_chars],
    [fetch_wikipedia_article] returns a text of at most [max_chars] + 3
    characters that starts with the first [max_chars] characters of the
    page, and returns the page unchanged when it is not longer than
    [max_chars]. *)
Theorem fetched_article_is_bounded (text title : string) (max_chars : Z) :
  (0 <= max_chars)%Z ->
  exists r,
    Pipeline.fetch_wikipedia_article (Pipeline.WikiPage text) title max_chars = Some r
    /\ (Z.of_nat (String.length r) <= max_chars + 3)%Z
    /\ String.prefix (Pipeline.take (Z.to_nat max_chars) text) r = true
    /\ ((Z.of_nat (String.length text) <= max_chars)%Z -> r = text).
Proof. exact (PipelineFacts.fetched_page text title max_chars). Qed.

Lemma fetched_article_is_bounded_witness :
  exists r,
    Pipeline.fetch_wikipedia_article (Pipeline.WikiPage "Mumbai Indians") "MI" 6 = Some r
    /\ (Z.of_nat (String.length r) <= 6 + 3)%Z
    /\ String.prefix (Pipeline.take (Z.to_nat 6) "Mumbai Indians") r = true
    /\ ((Z.of_nat (String.length "Mumbai Indians") <= 6)%Z -> r = "Mumbai Indians").
Proof.
  apply (fetched_article_is_bounded "Mumbai Indians" "MI" 6). lia.
Defined.

(** X15.  When Wikipedia has no page for the title,
    [create_synthetic_radio_host] does not stop: the "not found" message
    counts as the article, and with a language-model client configured the
    one prompt sent is built from that message. *)
Theorem missing_article_reaches_the_model
    (w : Pipeline.world) (title out : string) (use_elevenlabs : bool) :
  Pipeline.wiki w title = Pipeline.WikiMissing ->
  Pipeline.groq_client w = true ->
  snd (Pipeline.create_synthetic_radio_host w title out use_elevenlabs)
  = [Pipeline.create_conversation_prompt (Pipeline.prompts w)
       (Pipeline.not_found_message title) "Hinglish"].
Proof.
  intros Hwiki Hgroq. unfold Pipeline.create_synthetic_radio_host.
  rewrite Hwiki. cbn [Pipeline.fetch_wikipedia_article].
  rewrite PipelineFacts.not_found_truthy. cbn [Pipeline.text_of].
  unfold Pipeline.generate_conversation_script. rewrite Hgroq.
  destruct (Pipeline.falsy (Pipeline.chat w _)); [reflexivity|].
  destruct (Synth.generate_audio_for_segments _ _ _) as [[|clip clips]|e]; reflexivity.
Qed.

Lemma missing_article_reaches_the_model_witness :
  snd (Pipeline.create_synthetic_radio_host PipelineSamples.essay_world
         "Nowhere" "out.mp3" true)
  = [Pipeline.create_conversation_prompt PipelineSamples.plain_templates
       (Pipeline.not_found_message "Nowhere") "Hinglish"].
Proof.
  apply (missing_article_reaches_the_model PipelineSamples.essay_world
           "Nowhere" "out.mp3" true eq_refl eq_refl).
Defined.

(** X16.  When the generated script is not empty but none of its lines
    carries a speaker label, [create_synthetic_radio_host] does not return
    [None]: the all-failed exception of the synthesizer, with no failed
    position, propagates to the caller. *)
Theorem unlabelled_script_raises
    (w : Pipeline.world) (title out article script : string) (use_elevenlabs : bool) :
  Pipeline.fetch_wikipedia_article (Pipeline.wiki w title) title 2000 = Some article ->
  PyStr.truthy article = true ->
  Pipeline.groq_client w = true ->
  Pipeline.chat w (Pipeline.create_conversation_prompt (Pipeline.prompts w) article "Hinglish")
  = Some script ->
  PyStr.truthy script = true ->
  Forall (fun raw => SegmenterSpec.is_label_line raw = false) (PyStr.split_lines script) ->
  fst (Pipeline.create_synthetic_radio_host w title out use_elevenlabs)
  = Raise (AllSegmentsFailed []).
Proof.
  intros Hfetch Ha Hgroq Hchat Hs Hnone.
  unfold PyStr.truthy in Ha, Hs. apply negb_true_iff in Ha. apply negb_true_iff in Hs.
  unfold Pipeline.create_synthetic_radio_host. rewrite Hfetch.
  cbn [Pipeline.falsy Pipeline.text_of]. rewrite Ha.
  unfold Pipeline.generate_conversation_script. rewrite Hgroq, Hchat.
  cbn [Pipeline.falsy Pipeline.text_of]. rewrite Hs.
  rewrite (SegmenterMore.no_labels_no_segments script Hnone). reflexivity.
Qed.

Lemma unlabelled_script_raises_witness :
  fst (Pipeline.create_synthetic_radio_host PipelineSamples.essay_world
         "Mumbai Indians" "out.mp3" true)
  = Raise (AllSegmentsFailed []).
Proof.
  apply (unlabelled_script_raises PipelineSamples.essay_world
           "Mumbai Indians" "out.mp3" "A cricket team." "An essay about a cricket team."
           true eq_refl eq_refl eq_refl eq_refl eq_refl).
  vm_compute. repeat constructor.
Defined.

(** X17.  [create_synthetic_radio_host] returns [None] exactly when the
    article could not be fetched (or is empty) or the model gave no script
    (or an empty one); whenever it returns a file name, it is the requested
    output file name. *)
Theorem pipeline_results
    (w : Pipeline.world) (title out : string) (use_elevenlabs : bool) :
  Pipeline.groq_client w = true ->
  (fst (Pipeline.create_synthetic_radio_host w title out use_elevenlabs) = Return None
   <-> (Pipeline.falsy
          (Pipeline.fetch_wikipedia_article (Pipeline.wiki w title) title 2000) = true
        \/ Pipeline.falsy
             (Pipeline.chat w
                (Pipeline.create_conversation_prompt (Pipeline.prompts w)
                   (Pipeline.text_of
                      (Pipeline.fetch_wikipedia_article (Pipeline.wiki w title) title 2000))
                   "Hinglish")) = true))
  /\ (forall name,
        fst (Pipeline.create_synthetic_radio_host w title out use_elevenlabs)
        = Return (Some name) -> name = out).
Proof.
  intros Hgroq. unfold Pipeline.create_synthetic_radio_host.
  destruct (Pipeline.falsy
              (Pipeline.fetch_wikipedia_article (Pipeline.wiki w title) title 2000)) eqn:Ha.
  { cbn. split; [split; auto | discriminate]. }
  unfold Pipeline.generate_conversation_script. rewrite Hgroq.
  destruct (Pipeline.falsy (Pipeline.chat w _)) eqn:Hs.
  { cbn. split; [split; auto | discriminate]. }
  destruct (Synth.generate_audio_for_segments _ _ _) as [[|clip clips]|e] eqn:Hgen.
  - apply SynthRun.returns_real_audio in Hgen. destruct Hgen as [Hne _]. congruence.
  - cbn [fst].
    destruct (PipelineFacts.mixer_on_clips (Pipeline.machine w) clip clips out)
      as [Hok | [e He]].
    + rewrite Hok. split.
      * split; [discriminate | intros [H|H]; discriminate].
      * intros name H. congruence.
    + rewrite He. split.
      * split; [discriminate | intros [H|H]; discriminate].
      * discriminate.
  - cbn [fst]. split.
    + split; [discriminate | intros [H|H]; discriminate].
    + discriminate.
Qed.

Lemma pipeline_results_witness :
  fst (Pipeline.create_synthetic_radio_host PipelineSamples.talk_world
         "Mumbai Indians" "out.mp3" true)
  = Return (Some "out.mp3")
  /\ "out.mp3" = "out.mp3".
Proof.
  assert (H : fst (Pipeline.create_synthetic_radio_host PipelineSamples.talk_world
                     "Mumbai Indians" "out.mp3" true)
              = Return (Some "out.mp3")) by (vm_compute; reflexivity).
  split; [exact H|].
  exact (proj2 (pipeline_results PipelineSamples.talk_world
                  "Mumbai Indians" "out.mp3" true eq_refl) "out.mp3" H).
Defined.

(** ** About the helpers of the front end *)

Module AppFacts.
Import PyStr Pipeline App.

Lemma no_underscore_left (s : string) :
  contains "_"%char (replace s "_" " ") = false.
Proof.
  unfold replace. induction s as [|c s IH]; [reflexivity|].
  rewrite PyStrFacts.replace_from_scan.
  destruct (String.prefix "_" (String c s)) eqn:E.
  - change (String.length "_" - 1) with 0.
    change (String.append " " (replace_from 0 "_" " " s))
      with (String " " (replace_from 0 "_" " " s)).
    cbn [contains]. rewrite IH. reflexivity.
  - cbn [contains]. rewrite IH, orb_false_r.
    cbn [String.prefix] in E.
    destruct (ascii_dec "_" c) as [<-|Hne].
    + destruct s; discriminate.
    + apply Ascii.eqb_neq. congruence.
Qed.

Lemma append_empty (s : string) : String.append s EmptyString = s.
Proof.
  induction s as [|c s IH]; [reflexivity|].
  change (String.append (String c s) EmptyString)
    with (String c (String.append s EmptyString)).
  rewrite IH. reflexivity.
Qed.

Lemma first_part_split (sep : ascii) (s : string) :
  exists t, split_on sep s = first_part (split_on sep s) :: t.
Proof.
  destruct (PyStrFacts.split_on_cons sep s) as (h & t & ->). exists t. reflexivity.
Qed.

(** The first part of a split goes at least as far as the separator-free
    start of the string. *)
Lemma first_part_app (sep : ascii) (a b : string) :
  contains sep a = false ->
  first_part (split_on sep (String.append a b))
  = String.append a (first_part (split_on sep b)).
Proof.
  induction a as [|c a IH]; intros H; [reflexivity|].
  cbn [contains] in H. apply orb_false_elim in H as [Hc Ha].
  change (String.append (String c a) b) with (String c (String.append a b)).
  rewrite SegmenterMore.split_on_step, Hc.
  destruct (first_part_split sep (String.append a b)) as [t Ht]. rewrite Ht.
  cbn [first_part]. rewrite (IH Ha). reflexivity.
Qed.

Lemma first_part_at_sep (sep : ascii) (s : string) :
  first_part (split_on sep (String sep s)) = EmptyString.
Proof. rewrite SegmenterMore.split_on_step, Ascii.eqb_refl. reflexivity. Qed.

Lemma first_part_other (sep c : ascii) (s : string) :
  Ascii.eqb c sep = false ->
  first_part (split_on sep (String c s)) = String c (first_part (split_on sep s)).
Proof.
  intros H. rewrite SegmenterMore.split_on_step, H.
  destruct (first_part_split sep s) as [t Ht]. rewrite Ht. reflexivity.
Qed.

(** The part of a URL that [extract_title_from_wikipedia_url] looks at. *)
Lemma address_of_plain (base : string) :
  contains "?"%char base = false -> contains "#"%char base = false ->
  first_part (split_on "#"%char (first_part (split_on "?"%char base))) = base.
Proof.
  intros Hq Hf.
  rewrite (PyStrFacts.split_on_whole _ _ Hq). cbn [first_part].
  rewrite (PyStrFacts.split_on_whole _ _ Hf). reflexivity.
Qed.

Lemma address_with_query (base extra : string) :
  contains "?"%char base = false -> contains "#"%char base = false ->
  first_part (split_on "#"%char
                (first_part (split_on "?"%char (String.append base (String "?" extra)))))
  = base.
Proof.
  intros Hq Hf.
  rewrite (first_part_app _ _ _ Hq), first_part_at_sep, append_empty.
  rewrite (PyStrFacts.split_on_whole _ _ Hf). reflexivity.
Qed.

Lemma address_with_fragment (base extra : string) :
  contains "?"%char base = false -> contains "#"%char base = false ->
  first_part (split_on "#"%char
                (first_part (split_on "?"%char (String.append base (String "#" extra)))))
  = base.
Proof.
  intros Hq Hf.
  rewrite (first_part_app _ _ _ Hq), (first_part_other "?" "#" extra eq_refl).
  rewrite (first_part_app _ _ _ Hf), first_part_at_sep, append_empty. reflexivity.
Qed.

End AppFacts.

(** X18.  A title returned by [extract_title_from_wikipedia_url] never
    contains an underscore. *)
Theorem title_has_no_underscore (unquote : string -> string) (url title : string) :
  App.extract_title_from_wikipedia_url unquote url = Some title ->
  PyStr.contains "_"%char title = false.
Proof.
  unfold App.extract_title_from_wikipedia_url.
  destruct (App.contains_str "/wiki/" _); [|discriminate].
  intros H. injection H as <-. apply AppFacts.no_underscore_left.
Qed.

Lemma title_has_no_underscore_witness :
  PyStr.contains "_"%char "Mumbai Indians" = false.
Proof.
  apply (title_has_no_underscore (fun s => s)
           "https://en.wikipedia.org/wiki/Mumbai_Indians" "Mumbai Indians").
  vm_compute. reflexivity.
Defined.

(** X19.  [extract_title_from_wikipedia_url] ignores a query string and a
    fragment: for an address without "?" and "#", adding "?..." or "#..."
    after it does not change the result. *)
Theorem title_ignores_query_and_fragment
    (unquote : string -> string) (base extra : string) :
  PyStr.contains "?"%char base = false ->
  PyStr.contains "#"%char base = false ->
  App.extract_title_from_wikipedia_url unquote (String.append base (String "?" extra))
  = App.extract_title_from_wikipedia_url unquote base
  /\ App.extract_title_from_wikipedia_url unquote (String.append base (String "#" extra))
     = App.extract_title_from_wikipedia_url unquote base.
Proof.
  intros Hq Hf. unfold App.extract_title_from_wikipedia_url.
  rewrite (AppFacts.address_of_plain base Hq Hf).
  rewrite (AppFacts.address_with_query base extra Hq Hf).
  rewrite (AppFacts.address_with_fragment base extra Hq Hf).
  split; reflexivity.
Qed.

Lemma title_ignores_query_and_fragment_witness :
  App.extract_title_from_wikipedia_url (fun s => s)
    "https://en.wikipedia.org/wiki/Mumbai_Indians?action=history"
  = Some "Mumbai Indians".
Proof.
  exact (eq_trans
           (proj1 (title_ignores_query_and_fragment (fun s => s)
                     "https://en.wikipedia.org/wiki/Mumbai_Indians" "action=history"
                     eq_refl eq_refl))
           eq_refl).
Defined.

(** X20.  Whatever the input method, the article text that
    [get_article_text] returns is at most 2003 characters long, unless it is
    the "not found" message of [fetch_wikipedia_article]. *)
Theorem article_text_is_bounded
    (unquote : string -> string) (wiki : string -> Pipeline.wiki_answer)
    (input_method url_input text_input title_input article : string) :
  App.get_article_text unquote wiki input_method url_input text_input title_input
  = Some article ->
  String.length article <= 2003
  \/ exists title, article = Pipeline.not_found_message title.
Proof.
  assert (Hfetch : forall title,
             Pipeline.fetch_wikipedia_article (wiki title) title 2000 = Some article ->
             String.length article <= 2003
             \/ exists t, article = Pipeline.not_found_message t).
  { intros title H. destruct (wiki title) as [| |text] eqn:E.
    - discriminate.
    - right. exists title. cbn in H. congruence.
    - left. destruct (PipelineFacts.fetched_page text title 2000 ltac:(lia))
        as (r & Hr & Hlen & _).
      rewrite Hr in H. injection H as <-. lia. }
  unfold App.get_article_text.
  destruct (String.eqb input_method "Wikipedia URL").
  { destruct (PyStr.is_empty url_input); [discriminate|].
    destruct (App.extract_title_from_wikipedia_url unquote url_input) as [title|];
      [|discriminate].
    destruct (PyStr.is_empty title); [discriminate | apply Hfetch]. }
  destruct (String.eqb input_method "Paste Article Text").
  { destruct (PyStr.is_empty text_input); [discriminate|].
    destruct (Nat.ltb 2000 (String.length text_input)) eqn:E; intros H; injection H as <-.
    - left. rewrite PipelineFacts.length_app_str.
      pose proof (PipelineFacts.slice_to_length 2000 text_input ltac:(lia)).
      change (String.length "...") with 3. lia.
    - left. apply Nat.ltb_ge in E. lia. }
  destruct (String.eqb input_method "Article Title"); [|discriminate].
  destruct (PyStr.is_empty title_input); [discriminate | apply Hfetch].
Qed.

Lemma article_text_is_bounded_witness :
  String.length "pasted text" <= 2003
  \/ exists title, "pasted text" = Pipeline.not_found_message title.
Proof.
  apply (article_text_is_bounded (fun s => s) (fun _ => Pipeline.WikiRaises)
           "Paste Article Text" "" "pasted text" "" "pasted text" eq_refl).
Defined.

(** ** About the voice catalogue *)

Module VoicesFacts.
Import PyStr App Voices.

Lemma filter_step_passes (g t l : string) (filtered : catalog) (item : string * voice_info) :
  filter_step g t l filtered item
  = if passes g t l item then dict_set (fst item) (snd item) filtered else filtered.
Proof.
  destruct item as [name info]. unfold filter_step, passes. cbn [fst snd].
  destruct (String.eqb g "All"), (String.eqb (gender info) g),
    (String.eqb t "All"), (contains_str t (tone info)),
    (String.eqb l "All"), (contains_str l (language info)); reflexivity.
Qed.

Lemma dict_set_new (name : string) (info : voice_info) (d : catalog) :
  ~ In name (map fst d) -> dict_set name info d = d ++ [(name, info)].
Proof.
  induction d as [|[n i] d IH]; intros H; [reflexivity|].
  cbn [dict_set]. cbn [map fst In] in H.
  destruct (String.eqb_spec n name) as [->|Hne]; [tauto|].
  rewrite IH by tauto. reflexivity.
Qed.

Lemma dict_set_nonempty (name : string) (info : voice_info) (d : catalog) :
  dict_set name info d <> [].
Proof. destruct d as [|[n i] d]; cbn; [|destruct (String.eqb n name)]; discriminate. Qed.

Lemma filter_fold_distinct (g t l : string) (rest : catalog) :
  forall acc,
    NoDup (map fst rest) ->
    (forall n, In n (map fst acc) -> ~ In n (map fst rest)) ->
    fold_left (filter_step g t l) rest acc = acc ++ List.filter (passes g t l) rest.
Proof.
  induction rest as [|[name info] rest IH]; intros acc Hnd Hdisj.
  - cbn. rewrite app_nil_r. reflexivity.
  - cbn [fold_left List.filter]. rewrite filter_step_passes. cbn [fst snd].
    cbn [map fst] in Hnd, Hdisj. apply NoDup_cons in Hnd as [Hfresh Hrest].
    destruct (passes g t l (name, info)).
    + rewrite dict_set_new.
      * rewrite IH; [rewrite <- app_assoc; reflexivity | exact Hrest |].
        intros n Hn. rewrite map_app, in_app_iff in Hn. cbn in Hn.
        destruct Hn as [Hn | [<- | []]].
        -- intros Hin. apply (Hdisj n Hn). right. exact Hin.
        -- intros Hin. apply Hfresh. apply list_elem_of_In. exact Hin.
      * intros Hin. apply (Hdisj name Hin). left. reflexivity.
    + apply IH; [exact Hrest|].
      intros n Hn Hin. apply (Hdisj n Hn). right. exact Hin.
Qed.

Lemma filter_fold_nonempty (g t l : string) (rest : catalog) :
  forall acc,
    acc <> [] \/ (exists item, In item rest /\ passes g t l item = true) ->
    fold_left (filter_step g t l) rest acc <> [].
Proof.
  induction rest as [|item rest IH]; intros acc H.
  - destruct H as [H | (item & [] & _)]. exact H.
  - cbn [fold_left]. apply IH. rewrite filter_step_passes.
    destruct (passes g t l item) eqn:E.
    + left. apply dict_set_nonempty.
    + destruct H as [H | (it & [<- | Hin] & Hp)].
      * left. exact H.
      * congruence.
      * right. eauto.
Qed.

Lemma insert_sorted_in (x y : string) (l : list string) :
  In x (insert_sorted y l) -> x = y \/ In x l.
Proof.
  induction l as [|z l IH]; cbn.
  - intros [<- | []]. left. reflexivity.
  - destruct (String.compare y z); cbn; intuition.
Qed.

Lemma sorted_set_in (x : string) (values : list string) :
  In x (sorted_set values) -> In x values.
Proof.
  induction values as [|v values IH]; cbn; [tauto|].
  intros H. apply insert_sorted_in in H as [-> | H]; [left; reflexivity | right; auto].
Qed.

Lemma compare_gt_lt (x y : string) : String.compare x y = Gt -> String.compare y x = Lt.
Proof. intros H. rewrite String.compare_antisym, H. reflexivity. Qed.

Lemma insert_sorted_increasing (x : string) (l : list string) :
  increasing l -> increasing (insert_sorted x l).
Proof.
  induction l as [|y l IH]; intros H; [exact I|].
  cbn [insert_sorted]. destruct (String.compare x y) eqn:E.
  - exact H.
  - split; assumption.
  - destruct l as [|z l].
    + cbn. split; [apply compare_gt_lt, E | exact I].
    + destruct H as [Hyz Hrest]. specialize (IH Hrest).
      cbn [insert_sorted] in *. destruct (String.compare x z) eqn:E'.
      * split; assumption.
      * split; [apply compare_gt_lt, E | exact IH].
      * split; [exact Hyz | exact IH].
Qed.

Lemma sorted_set_increasing (values : list string) : increasing (sorted_set values).
Proof.
  induction values as [|v values IH]; [exact I|].
  apply insert_sorted_increasing, IH.
Qed.

Lemma collected_from (key : string) (voices : catalog) :
  forall acc values,
    fold_left (collect_step key) voices (Some acc) = Some values ->
    forall v, In v values ->
              In v acc \/ exists item, In item voices /\ option_of key (snd item) = Some v.
Proof.
  induction voices as [|item voices IH]; intros acc values H v Hv.
  - cbn in H. injection H as <-. left. exact Hv.
  - cbn [fold_left collect_step] in H.
    destruct (option_of key (snd item)) as [x|] eqn:E.
    + destruct (IH _ _ H v Hv) as [[<- | Hacc] | (it & Hin & Hit)].
      * right. exists item. split; [left; reflexivity | exact E].
      * left. exact Hacc.
      * right. exists it. split; [right; exact Hin | exact Hit].
    + assert (Hnone : forall l, fold_left (collect_step key) l None = None).
      { induction l; [reflexivity | assumption]. }
      rewrite Hnone in H. discriminate.
Qed.

Lemma prefix_refl (s : string) : String.prefix s s = true.
Proof.
  induction s as [|c s IH]; [reflexivity|].
  cbn. destruct (ascii_dec c c) as [_|Hne]; [exact IH | congruence].
Qed.

Lemma prefix_contains (sub s : string) :
  String.prefix sub s = true -> contains_str sub s = true.
Proof. intros H. destruct s; cbn [contains_str]; rewrite H; reflexivity. Qed.

Lemma split_from_cons (sep s : string) :
  forall skip, exists h t, split_from skip sep s = h :: t.
Proof.
  induction s as [|c s IH]; intros skip; cbn [split_from]; [eauto|].
  destruct skip as [|k]; [|apply IH].
  destruct (String.prefix sep (String c s)); [eauto|].
  destruct (IH 0) as (h & t & ->). eauto.
Qed.

(** The first part of a split is the start of the string. *)
Lemma first_part_prefix (sep s : string) :
  String.prefix (first_part (split s sep)) s = true.
Proof.
  unfold split. induction s as [|c s IH]; [reflexivity|].
  cbn [split_from]. destruct (String.prefix sep (String c s)); [reflexivity|].
  destruct (split_from_cons sep s 0) as (h & t & E). rewrite E in *.
  cbn [first_part] in *. cbn [String.prefix].
  destruct (ascii_dec c c) as [_|Hne]; [exact IH | congruence].
Qed.

(** The voice an option comes from is selected by that option. *)
Lemma option_selects (key v : string) (item : string * voice_info) :
  key = "gender" \/ key = "tone" \/ key = "language" ->
  option_of key (snd item) = Some v ->
  (if String.eqb key "gender" then passes v "All" "All" item
   else if String.eqb key "tone" then passes "All" v "All" item
   else passes "All" "All" v item) = true.
Proof.
  destruct item as [name info]. cbn [snd].
  intros [-> | [-> | ->]]; unfold option_of, info_get, passes; cbn;
    intros [= <-].
  - rewrite String.eqb_refl, orb_true_r. reflexivity.
  - rewrite (prefix_contains _ _ (first_part_prefix " & " (tone info))), orb_true_r.
    reflexivity.
  - rewrite (prefix_contains _ _ (prefix_refl (language info))), orb_true_r.
    reflexivity.
Qed.

End VoicesFacts.

(** X21.  For a catalogue whose voice names are distinct,
    [get_filtered_voices] returns, in catalogue order, exactly the voices
    that pass the three filters, and the whole catalogue when the three
    filters are "All". *)
Theorem filtered_voices_are_the_matching_ones
    (voice_catalog : Voices.catalog) (gender_filter tone_filter language_filter : string) :
  NoDup (map fst voice_catalog) ->
  Voices.get_filtered_voices voice_catalog gender_filter tone_filter language_filter
  = List.filter (Voices.passes gender_filter tone_filter language_filter) voice_catalog
  /\ Voices.get_filtered_voices voice_catalog "All" "All" "All" = voice_catalog.
Proof.
  intros Hnd. unfold Voices.get_filtered_voices. split.
  - rewrite VoicesFacts.filter_fold_distinct; [reflexivity | exact Hnd | intros n []].
  - rewrite VoicesFacts.filter_fold_distinct; [| exact Hnd | intros n []].
    cbn [app]. clear Hnd. induction voice_catalog as [|item rest IH]; [reflexivity|].
    cbn [List.filter]. change (Voices.passes "All" "All" "All" item) with true.
    cbn iota. f_equal. exact IH.
Qed.

Lemma filtered_voices_are_the_matching_ones_witness :
  Voices.get_filtered_voices Voices.two_voices "Male" "All" "Indian"
  = [("Josh", Voices.josh)].
Proof.
  rewrite (proj1 (filtered_voices_are_the_matching_ones Voices.two_voices
                    "Male" "All" "Indian"
                    ltac:(apply (bool_decide_unpack _); vm_compute; exact I))).
  reflexivity.
Defined.

(** X22.  Every option that [get_unique_values] offers for gender, tone or
    language, other than "All", selects at least one voice when it is given
    to [get_filtered_voices] as the filter of that key. *)
Theorem every_option_selects_a_voice
    (voice_catalog : Voices.catalog) (key : string) (options : list string) (v : string) :
  key = "gender" \/ key = "tone" \/ key = "language" ->
  Voices.get_unique_values voice_catalog key = Some options ->
  In v options -> v <> "All" ->
  Voices.select_by voice_catalog key v <> [].
Proof.
  intros Hkey Hopts Hv Hne. unfold Voices.get_unique_values in Hopts.
  destruct (fold_left (Voices.collect_step key) voice_catalog (Some [])) as [values|] eqn:E;
    [|discriminate].
  injection Hopts as <-. destruct Hv as [Hv | Hv]; [congruence|].
  apply VoicesFacts.sorted_set_in in Hv.
  destruct (VoicesFacts.collected_from key voice_catalog [] values E v Hv)
    as [[] | (item & Hin & Hitem)].
  pose proof (VoicesFacts.option_selects key v item Hkey Hitem) as Hpass.
  unfold Voices.select_by, Voices.get_filtered_voices.
  destruct (String.eqb key "gender"); [|destruct (String.eqb key "tone")];
    apply VoicesFacts.filter_fold_nonempty; right; exists item; split; assumption.
Qed.

Lemma every_option_selects_a_voice_witness :
  Voices.select_by Voices.two_voices "tone" "Young" <> [].
Proof.
  apply (every_option_selects_a_voice Voices.two_voices "tone"
           ["All"; "Warm"; "Young"] "Young").
  - right. left. reflexivity.
  - vm_compute. reflexivity.
  - right. right. left. reflexivity.
  - discriminate.
Defined.

(** X23.  The list of options returned by [get_unique_values] starts with
    "All"; the options after it are in strictly increasing order, hence
    without duplicates, and each of them is the value of some voice of the
    catalogue. *)
Theorem unique_values_are_sorted
    (voice_catalog : Voices.catalog) (key : string) (options : list string) :
  Voices.get_unique_values voice_catalog key = Some options ->
  exists rest,
    options = "All" :: rest
    /\ Voices.increasing rest
    /\ (forall v, In v rest ->
                  exists item, In item voice_catalog
                               /\ Voices.option_of key (snd item) = Some v).
Proof.
  intros Hopts. unfold Voices.get_unique_values in Hopts.
  destruct (fold_left (Voices.collect_step key) voice_catalog (Some [])) as [values|] eqn:E;
    [|discriminate].
  injection Hopts as <-. eexists. split; [reflexivity|]. split.
  - apply VoicesFacts.sorted_set_increasing.
  - intros v Hv. apply VoicesFacts.sorted_set_in in Hv.
    destruct (VoicesFacts.collected_from key voice_catalog [] values E v Hv)
      as [[] | H]. exact H.
Qed.

Lemma unique_values_are_sorted_witness :
  exists rest,
    ["All"; "Female"; "Male"] = "All" :: rest
    /\ Voices.increasing rest
    /\ (forall v, In v rest ->
                  exists item, In item Voices.two_voices
                               /\ Voices.option_of "gender" (snd item) = Some v).
Proof.
  apply (unique_values_are_sorted Voices.two_voices "gender" ["All"; "Female"; "Male"]).
  vm_compute. reflexivity.
Defined.
